(** * Lifecycle orchestration of [app.js]: readiness gate, connection
      probes and graceful shutdown.

    The development embeds the module-level [state] object of [app.js],
    the functions [shutdown], [cleanup], [initializeConnections],
    [checkConnections] and [mountServices], and the readiness middleware.
    Asynchronous behaviour (timers, promise settlement, close callbacks)
    is modelled by an explicit event loop: a world records what is pending
    and an executable [step] function runs one callback to completion. *)

From Stdlib Require Import ZArith List Bool String Lia.
Import ListNotations.
Local Open Scope string_scope.
Local Open Scope list_scope.
Local Open Scope Z_scope.

(** ** The [state] object (app.js, lines 20-29) *)

Module St.

Record Connections : Type := mkConnections {
  data : bool;
  email : bool;
  queue : bool
}.

Record t : Type := mk {
  connections : Connections;
  mounted : bool;
  ready : bool;
  shutdown : bool
}.

(** [Object.values(state.connections)], in the insertion order of the
    object literal. *)
Definition values (c : Connections) : list bool :=
  [data c; email c; queue c].

(** [xs.every(x => x)] *)
Definition every (xs : list bool) : bool := forallb (fun x => x) xs.

Definition set_data (v : bool) (s : t) : t :=
  mk (mkConnections v (email (connections s)) (queue (connections s)))
     (mounted s) (ready s) (shutdown s).

Definition set_email (v : bool) (s : t) : t :=
  mk (mkConnections (data (connections s)) v (queue (connections s)))
     (mounted s) (ready s) (shutdown s).

Definition set_queue (v : bool) (s : t) : t :=
  mk (mkConnections (data (connections s)) (email (connections s)) v)
     (mounted s) (ready s) (shutdown s).

Definition set_mounted (v : bool) (s : t) : t :=
  mk (connections s) v (ready s) (shutdown s).

Definition set_ready (v : bool) (s : t) : t :=
  mk (connections s) (mounted s) v (shutdown s).

Definition set_shutdown (v : bool) (s : t) : t :=
  mk (connections s) (mounted s) (ready s) v.

(** The literal the module starts with: SMTP is assumed accessible. *)
Definition initial : t :=
  mk (mkConnections false true false) false false false.

End St.

(** ** The readiness middleware (app.js, lines 68-76) *)

(** [new Problem(status, { details })] *)
Record Problem : Type := mkProblem {
  status : Z;
  details : string
}.

(** What a middleware does with a request: it either sends a response or
    hands the request to [next()]. *)
Inductive Handled (Req : Type) : Type :=
| Sent (p : Problem)
| Next (req : Req).
Arguments Sent {Req} p.
Arguments Next {Req} req.

Definition gate {Req : Type} (s : St.t) (req : Req) : Handled Req :=
  if St.shutdown s then
    Sent (mkProblem 503 "Server is shutting down")
  else if negb (St.ready s) || negb (St.mounted s) then
    Sent (mkProblem 503 "Server is not ready")
  else
    Next req.

(** ** The process around the state *)

Inductive NodeEnv : Type := EnvTest | EnvProduction | EnvOther.

Definition is_test (e : NodeEnv) : bool :=
  match e with EnvTest => true | _ => false end.

Definition is_production (e : NodeEnv) : bool :=
  match e with EnvProduction => true | _ => false end.

(** The three connection objects. *)
Inductive Dep : Type := Queue | Email | Data.

(** Functions handed to [setTimeout] / [setInterval]. *)
Inductive TimerFn : Type :=
| FnCleanup            (* setTimeout(cleanup, 5000) *)
| FnCheckConnections   (* setInterval(checkConnections, 10000) *)
| FnHardExit.          (* setTimeout(() => process.exit(), 10000) *)

Record Timer : Type := mkTimer {
  tid : nat;
  due : Z;
  fn : TimerFn;
  period : option Z      (* [Some p] for an interval *)
}.

(** The nested callbacks of [cleanup], outermost first. *)
Inductive CloseCb : Type :=
| ThenCloseEmail   (* () => emailConnection.close(...) *)
| ThenCloseData    (* () => dataConnection.close(...) *)
| ThenExit.        (* () => process.exit() *)

(** Observable effects, recorded newest first. *)
Inductive Effect : Type :=
| LogInfo (msg : string)
| LogError (msg : string)
| LogVerbose (msg : string)
| QueuePause                 (* queueConnection.pause() *)
| ClearInterval              (* clearInterval(probeId) *)
| Mounted                    (* mountServices() attached the listeners *)
| CloseCalled (d : Dep)      (* d.close(cb) was called *)
| CloseDone (d : Dep)        (* the callback given to d.close was invoked *)
| Exit (code : Z).           (* process.exit() *)

Record World : Type := mkWorld {
  env : NodeEnv;
  state : St.t;
  probeId : option nat;            (* [let probeId] *)
  exitCode : option Z;             (* [process.exitCode] *)
  exited : option Z;               (* status the process exited with *)
  now : Z;                         (* milliseconds since start *)
  timers : list Timer;             (* pending timeouts and intervals *)
  nextTimer : nat;                 (* next fresh timer handle *)
  startup : bool;                  (* the startup batch has not settled *)
  inflight : list bool;            (* periodic batches, with [wasMounted] *)
  closing : list (Dep * CloseCb);  (* close calls awaiting their callback *)
  trace : list Effect
}.

Definition with_state (f : St.t -> St.t) (w : World) : World :=
  mkWorld (env w) (f (state w)) (probeId w) (exitCode w) (exited w) (now w)
          (timers w) (nextTimer w) (startup w) (inflight w) (closing w)
          (trace w).

Definition with_probeId (v : option nat) (w : World) : World :=
  mkWorld (env w) (state w) v (exitCode w) (exited w) (now w)
          (timers w) (nextTimer w) (startup w) (inflight w) (closing w)
          (trace w).

Definition with_exitCode (v : option Z) (w : World) : World :=
  mkWorld (env w) (state w) (probeId w) v (exited w) (now w)
          (timers w) (nextTimer w) (startup w) (inflight w) (closing w)
          (trace w).

Definition with_exited (v : option Z) (w : World) : World :=
  mkWorld (env w) (state w) (probeId w) (exitCode w) v (now w)
          (timers w) (nextTimer w) (startup w) (inflight w) (closing w)
          (trace w).

Definition with_now (v : Z) (w : World) : World :=
  mkWorld (env w) (state w) (probeId w) (exitCode w) (exited w) v
          (timers w) (nextTimer w) (startup w) (inflight w) (closing w)
          (trace w).

Definition with_timers (v : list Timer) (w : World) : World :=
  mkWorld (env w) (state w) (probeId w) (exitCode w) (exited w) (now w)
          v (nextTimer w) (startup w) (inflight w) (closing w)
          (trace w).

Definition with_nextTimer (v : nat) (w : World) : World :=
  mkWorld (env w) (state w) (probeId w) (exitCode w) (exited w) (now w)
          (timers w) v (startup w) (inflight w) (closing w)
          (trace w).

Definition with_startup (v : bool) (w : World) : World :=
  mkWorld (env w) (state w) (probeId w) (exitCode w) (exited w) (now w)
          (timers w) (nextTimer w) v (inflight w) (closing w)
          (trace w).

Definition with_inflight (v : list bool) (w : World) : World :=
  mkWorld (env w) (state w) (probeId w) (exitCode w) (exited w) (now w)
          (timers w) (nextTimer w) (startup w) v (closing w)
          (trace w).

Definition with_closing (v : list (Dep * CloseCb)) (w : World) : World :=
  mkWorld (env w) (state w) (probeId w) (exitCode w) (exited w) (now w)
          (timers w) (nextTimer w) (startup w) (inflight w) v
          (trace w).

Definition emit (e : Effect) (w : World) : World :=
  mkWorld (env w) (state w) (probeId w) (exitCode w) (exited w) (now w)
          (timers w) (nextTimer w) (startup w) (inflight w) (closing w)
          (e :: trace w).

(** ** Runtime primitives *)

(** [setTimeout(f, delay)] and [setInterval(f, delay)]: a fresh handle, a
    pending timer due [delay] milliseconds from now. *)
Definition setTimeout (f : TimerFn) (delay : Z) (w : World) : World :=
  with_nextTimer (S (nextTimer w))
    (with_timers (timers w ++ [mkTimer (nextTimer w) (now w + delay) f None]) w).

Definition setInterval (f : TimerFn) (delay : Z) (w : World) : nat * World :=
  (nextTimer w,
   with_nextTimer (S (nextTimer w))
     (with_timers
        (timers w ++ [mkTimer (nextTimer w) (now w + delay) f (Some delay)]) w)).

(** [clearInterval(id)]; clearing [undefined] does nothing. *)
Definition clearInterval (id : option nat) (w : World) : World :=
  emit ClearInterval
    match id with
    | None => w
    | Some i => with_timers (filter (fun t => negb (Nat.eqb (tid t) i)) (timers w)) w
    end.

(** [process.exit()] with no argument exits with [process.exitCode], or 0
    when that is still undefined. *)
Definition process_exit (w : World) : World :=
  let code := match exitCode w with Some c => c | None => 0 end in
  with_exited (Some code) (emit (Exit code) w).

(** Modelled from the spec: the [close(onDone)] method of the connection
    classes under [src/services], which are not part of this file.  The
    call is recorded and [onDone] waits until the connection signals
    completion, which it does by invoking the callback, once, from a later
    turn of the event loop, or never. *)
Definition close (d : Dep) (cb : CloseCb) (w : World) : World :=
  with_closing (closing w ++ [(d, cb)]) (emit (CloseCalled d) w).

(** ** The functions of app.js *)

(** [shutdown] (lines 141-147). *)
Definition shutdown (w : World) : World :=
  let w := emit (LogInfo "Received kill signal. Shutting down...") w in
  let w := emit QueuePause w in
  if negb (St.shutdown (state w)) then setTimeout FnCleanup 5000 w else w.

(** [cleanup] (lines 153-170). *)
Definition cleanup (w : World) : World :=
  let w := emit (LogInfo "Service no longer accepting traffic") w in
  let w := with_state (St.set_shutdown true) w in
  let w := emit (LogInfo "Cleaning up...") w in
  let w := clearInterval (probeId w) w in
  let w := close Queue ThenCloseEmail w in
  setTimeout FnHardExit 10000 w.

(** The callbacks nested inside [cleanup] (lines 160-166). *)
Definition run_close_cb (cb : CloseCb) (w : World) : World :=
  match cb with
  | ThenCloseEmail => close Email ThenCloseData w
  | ThenCloseData => close Data ThenExit w
  | ThenExit => process_exit w
  end.

(** [mountServices] (lines 249-258). *)
Definition mountServices (w : World) : World :=
  emit (LogVerbose "Listener workers attached") (emit Mounted w).

(** The promise chain of [initializeConnections] (lines 189-204).
    [results] is what [Promise.all(tasks)] resolved with; [results[2]] is
    [undefined] unless the email check was pushed. *)
Definition startup_then (results : bool * bool * option bool) (w : World) : World :=
  let '(r0, r1, r2) := results in
  let w := with_state (St.set_data r0) w in
  let w := with_state (St.set_queue r1) w in
  match r2 with
  | Some e => with_state (St.set_email e) w
  | None => w
  end.

Definition startup_catch (w : World) : World :=
  emit (LogError "initializeConnections") w.

(** The logged line is abbreviated to its constant prefix. *)
Definition startup_finally (w : World) : World :=
  let w := emit (LogInfo "Connection Statuses") w in
  let w := with_state
             (fun s => St.set_ready (St.every (St.values (St.connections s))) s) w in
  mountServices w.

(** [initializeConnections] (lines 177-215).  [throws] says whether
    building the task list raised synchronously, which is the only way
    into the [catch] block of the [try]. *)
Definition initializeConnections (throws : bool) (w : World) : World :=
  let w :=
    if throws then
      let w := emit (LogError "Connection initialization failure") w in
      if negb (St.ready (state w)) then shutdown (with_exitCode (Some 1) w)
      else w
    else with_startup true w in
  let '(id, w) := setInterval FnCheckConnections 10000 w in
  with_probeId (Some id) w.

(** [checkConnections] (lines 222-243), up to the point where the batch
    is started: the callback of [then] closes over [wasMounted]. *)
Definition checkConnections (w : World) : World :=
  let wasMounted := St.mounted (state w) in
  if negb (St.shutdown (state w)) then
    with_inflight (inflight w ++ [wasMounted]) w
  else w.

(** The callback given to [Promise.all(tasks).then] in
    [checkConnections] (lines 230-241). *)
Definition checkConnections_then (wasMounted : bool) (results : bool * bool)
    (w : World) : World :=
  let '(r0, r1) := results in
  let w := with_state (St.set_data r0) w in
  let w := with_state (St.set_queue r1) w in
  let w := with_state
             (fun s => St.set_ready (St.every (St.values (St.connections s))) s) w in
  let w := with_state (St.set_mounted r1) w in
  let w :=
    if negb wasMounted && St.mounted (state w) && St.ready (state w)
    then emit (LogInfo "Service ready to accept traffic") w else w in
  let w := emit (LogVerbose "State") w in
  if negb (St.ready (state w)) then shutdown (with_exitCode (Some 1) w)
  else w.

(** The handler of [unhandledRejection] (lines 122-126). *)
Definition unhandledRejection (w : World) : World :=
  emit (LogError "unhandledRejection") w.

(** Module load: the state literal, then [initializeConnections()] unless
    [NODE_ENV] is [test] (lines 56-62). *)
Definition fresh (e : NodeEnv) : World :=
  mkWorld e St.initial None None None 0 [] O false [] [] [].

Definition boot (e : NodeEnv) (throws : bool) : World :=
  if is_test e then fresh e else initializeConnections throws (fresh e).

(** ** The event loop *)

(** Modelled from the spec: the checks of the connection classes resolve
    to booleans ([probeDeep() -> boolean (or failure)], [probeOnce() ->
    boolean]); the results carried by [StartupSettles] and [ProbeSettles]
    are what those promises resolved with.

    One event is one callback run to completion.
    - [Signal]: one of SIGTERM, SIGINT, SIGUSR1, SIGUSR2 (lines 129-132).
    - [Elapse d]: [d] milliseconds pass; a pending timer is never
      overslept, so time stops at the earliest due date until that timer
      has fired.
    - [TimerFires k]: the [k]-th pending timer is due and runs.
    - [StartupSettles r]: the startup batch settles; [r] is [None] when
      [Promise.all] rejected.  The [then], [catch] and [finally] callbacks
      run in consecutive microtasks, so no timer, signal or request can
      come between them.
    - [ProbeSettles k r]: the [k]-th periodic batch in flight settles.
    - [CloseCompletes k]: the [k]-th pending [close] invokes its
      callback. *)
Inductive Event : Type :=
| Signal
| Elapse (d : Z)
| TimerFires (k : nat)
| StartupSettles (r : option (bool * bool * option bool))
| ProbeSettles (k : nat) (r : option (bool * bool))
| CloseCompletes (k : nat).

Definition remove_at {A : Type} (k : nat) (l : list A) : list A :=
  firstn k l ++ skipn (S k) l.

Definition run_timer_fn (f : TimerFn) (w : World) : World :=
  match f with
  | FnCleanup => cleanup w
  | FnCheckConnections => checkConnections w
  | FnHardExit => process_exit w
  end.

(** A timeout is dropped when it fires, an interval is re-armed. *)
Definition rearm (k : nat) (t : Timer) (w : World) : World :=
  let rest := remove_at k (timers w) in
  match period t with
  | Some p => with_timers (rest ++ [mkTimer (tid t) (now w + p) (fn t) (Some p)]) w
  | None => with_timers rest w
  end.

Definition fire (k : nat) (w : World) : option World :=
  match nth_error (timers w) k with
  | Some t =>
      if due t <=? now w then Some (run_timer_fn (fn t) (rearm k t w))
      else None
  | None => None
  end.

(** The task list has a third entry exactly in production (lines
    185-187). *)
Definition results_fit (e : NodeEnv) (r : option (bool * bool * option bool)) : bool :=
  match r with
  | Some (_, _, Some _) => is_production e
  | Some (_, _, None) => negb (is_production e)
  | None => true
  end.

Definition settle_startup (r : option (bool * bool * option bool)) (w : World) : World :=
  let w := with_startup false w in
  let w := match r with
           | Some results => startup_then results w
           | None => startup_catch w
           end in
  startup_finally w.

Definition settle_probe (k : nat) (r : option (bool * bool)) (w : World) : option World :=
  match nth_error (inflight w) k with
  | Some wasMounted =>
      let w := with_inflight (remove_at k (inflight w)) w in
      Some match r with
           | Some results => checkConnections_then wasMounted results w
           | None => unhandledRejection w
           end
  | None => None
  end.

Definition complete_close (k : nat) (w : World) : option World :=
  match nth_error (closing w) k with
  | Some (d, cb) =>
      Some (run_close_cb cb
              (emit (CloseDone d) (with_closing (remove_at k (closing w)) w)))
  | None => None
  end.

Definition step (w : World) (e : Event) : option World :=
  match exited w with
  | Some _ => None
  | None =>
      match e with
      | Signal => Some (shutdown w)
      | Elapse d =>
          if (0 <? d) && forallb (fun t => now w + d <=? due t) (timers w)
          then Some (with_now (now w + d) w) else None
      | TimerFires k => fire k w
      | StartupSettles r =>
          if startup w && results_fit (env w) r
          then Some (settle_startup r w) else None
      | ProbeSettles k r => settle_probe k r w
      | CloseCompletes k => complete_close k w
      end
  end.

Fixpoint run (w : World) (es : list Event) : option World :=
  match es with
  | [] => Some w
  | e :: es' =>
      match step w e with
      | Some w' => run w' es'
      | None => None
      end
  end.

(** The worlds the process can be in. *)
Definition Reachable (w : World) : Prop :=
  exists e throws es, run (boot e throws) es = Some w.

(** ** Readings of a world used in the statements *)

Definition eqb_dep (a b : Dep) : bool :=
  match a, b with
  | Queue, Queue | Email, Email | Data, Data => true
  | _, _ => false
  end.

Definition is_close_called (d : Dep) (e : Effect) : bool :=
  match e with CloseCalled d' => eqb_dep d d' | _ => false end.

Definition is_close_done (d : Dep) (e : Effect) : bool :=
  match e with CloseDone d' => eqb_dep d d' | _ => false end.

Definition is_exit (e : Effect) : bool :=
  match e with Exit _ => true | _ => false end.

Definition count_effects (p : Effect -> bool) (w : World) : nat :=
  List.length (filter p (trace w)).

(** How often [cleanup] started its close chain. *)
Definition cleanups (w : World) : nat := count_effects (is_close_called Queue) w.

Definition is_probe_completion (e : Event) : bool :=
  match e with ProbeSettles _ (Some _) => true | _ => false end.

(** The state after one event, event by event. *)
Definition state_after (w : World) (e : Event) : St.t :=
  match e with
  | Signal | Elapse _ | CloseCompletes _ | ProbeSettles _ None => state w
  | TimerFires k =>
      match nth_error (timers w) k with
      | Some (mkTimer _ _ FnCleanup _) => St.set_shutdown true (state w)
      | _ => state w
      end
  | StartupSettles r => state (settle_startup r w)
  | ProbeSettles _ (Some r) => state (checkConnections_then false r w)
  end.

Definition health_after (r0 r1 : bool) (s : St.t) : St.t :=
  St.mk (St.mkConnections r0 (St.email (St.connections s)) r1)
        r1
        (r0 && (St.email (St.connections s) && (r1 && true)))
        (St.shutdown s).

Definition is_health_update (e : Event) : bool :=
  match e with
  | StartupSettles _ | ProbeSettles _ (Some _) => true
  | _ => false
  end.

Definition ready_recomputed (s : St.t) : Prop :=
  St.ready s =
  St.data (St.connections s) && St.email (St.connections s)
  && St.queue (St.connections s).


(** The world a run from module load ends in ([fresh] when some event of
    the run is not enabled). *)
Definition world_after (e : NodeEnv) (throws : bool) (es : list Event) : World :=
  match run (boot e throws) es with
  | Some w => w
  | None => fresh e
  end.

Definition is_pause (e : Effect) : bool :=
  match e with QueuePause => true | _ => false end.

(** How often [mounted] goes from false to true along a run. *)
Fixpoint rises (w : World) (es : list Event) : nat :=
  match es with
  | [] => O
  | e :: es' =>
      match step w e with
      | Some w' =>
          ((if negb (St.mounted (state w)) && St.mounted (state w')
            then 1 else 0) + rises w' es')%nat
      | None => O
      end
  end.

(** *** Statements that the code does not satisfy as they are written *)

(** Every gate evaluation before the first completed periodic batch
    answers "Server is not ready". *)
Definition not_ready_until_first_probe : Prop :=
  forall (e : NodeEnv) (throws : bool) (es : list Event) (w : World),
    run (boot e throws) es = Some w ->
    existsb is_probe_completion es = false ->
    gate (state w) tt = Sent (mkProblem 503 "Server is not ready").

(** [mounted] becomes true at most once. *)
Definition mounted_at_most_once : Prop :=
  forall (e : NodeEnv) (throws : bool) (es : list Event),
    (rises (boot e throws) es <= 1)%nat.

(** [mounted] never goes back to false while [shutdown] is false. *)
Definition mounted_never_reverts : Prop :=
  forall (w : World) (e : Event) (w' : World),
    Reachable w -> step w e = Some w' ->
    St.mounted (state w) = true -> St.shutdown (state w') = false ->
    St.mounted (state w') = true.

(** The callback of a batch that settles after [shutdown] became true
    changes nothing and does not call [shutdown()]. *)
Definition late_probe_callback_is_noop : Prop :=
  forall (w : World) (k : nat) (r : option (bool * bool)) (w' : World),
    Reachable w -> St.shutdown (state w) = true ->
    step w (ProbeSettles k r) = Some w' ->
    state w' = state w
    /\ count_effects is_pause w' = count_effects is_pause w.

(** Two or more shutdown triggers run the close sequence exactly once. *)
Definition shutdown_is_idempotent : Prop :=
  forall (e : NodeEnv) (throws : bool) (es : list Event) (w : World),
    run (boot e throws) es = Some w ->
    (cleanups w <= 1)%nat.

(** *** Reading the trace of a close chain *)

Definition is_clear (e : Effect) : bool :=
  match e with ClearInterval => true | _ => false end.

Definition is_completion (e : Effect) : bool :=
  match e with CloseDone _ => true | _ => false end.

(** Traces are newest first.  [each_preceded p q t]: every effect of [t]
    that satisfies [p] was emitted directly after one that satisfies
    [q]. *)
Fixpoint each_preceded (p q : Effect -> bool) (t : list Effect) : bool :=
  match t with
  | [] => true
  | x :: rest =>
      (if p x then match rest with y :: _ => q y | [] => false end else true)
      && each_preceded p q rest
  end.

(** [each_followed p q t]: in [t], the effect emitted directly after one
    that satisfies [p] satisfies [q]. *)
Fixpoint each_followed (p q : Effect -> bool) (t : list Effect) : bool :=
  match t with
  | [] => true
  | x :: rest =>
      match rest with
      | y :: _ => if p y then q x else true
      | [] => true
      end
      && each_followed p q rest
  end.

(** The newest effect is not a completion whose callback is still to
    run. *)
Definition settled (t : list Effect) : bool :=
  match t with
  | x :: _ => negb (is_completion x)
  | [] => true
  end.

(** Effects other than the calls and completions of [close]. *)
Definition quiet (x : Effect) : bool :=
  match x with
  | CloseCalled _ | CloseDone _ => false
  | _ => true
  end.

(** A pending close holds the callback that [cleanup] nested for it. *)
Definition paired (p : Dep * CloseCb) : bool :=
  match p with
  | (Queue, ThenCloseEmail) | (Email, ThenCloseData) | (Data, ThenExit) => true
  | _ => false
  end.

Definition trace_ordered (t : list Effect) : bool :=
  each_preceded (is_close_called Queue) is_clear t
  && each_preceded (is_close_called Email) (is_close_done Queue) t
  && each_preceded (is_close_called Data) (is_close_done Email) t
  && each_followed (is_close_done Queue) (is_close_called Email) t
  && each_followed (is_close_done Email) (is_close_called Data) t
  && each_followed (is_close_done Data) is_exit t
  && settled t.

Definition chain_ordered (w : World) : Prop :=
  forallb paired (closing w) = true /\ trace_ordered (trace w) = true.

(** *** Timers *)

(** The handle in [probeId] belongs to the interval and to nothing
    else, and later handles are fresh. *)
Definition probe_handle_ok (w : World) : Prop :=
  match probeId w with
  | Some i =>
      (i < nextTimer w)%nat
      /\ forall t, In t (timers w) -> tid t = i -> fn t = FnCheckConnections
  | None => True
  end.

(** The timer that [cleanup] sets for the forced exit, due at [T]. *)
Definition hard_exit_timer (i : nat) (T : Z) : Timer :=
  mkTimer i T FnHardExit None.

Definition exits_when_fired (w : World) (j : nat) : Prop :=
  exists w' code, step w (TimerFires j) = Some w' /\ exited w' = Some code.

(** [keeps_timers w w']: going from [w] to [w'] no pending timer was
    removed or changed, the clock and [probeId] are the same, and the
    timers that were added carry fresh handles. *)
Definition keeps_timers (w w' : World) : Prop :=
  probeId w' = probeId w
  /\ now w' = now w
  /\ (nextTimer w <= nextTimer w')%nat
  /\ exists extra,
       timers w' = timers w ++ extra
       /\ forall t, In t extra -> (nextTimer w <= tid t)%nat.


Definition hard_exit_pending (T : Z) (w : World) : Prop :=
  now w <= T /\ exists i, In (hard_exit_timer i T) (timers w).

(** After [cleanup] ran at time [T - 10000]: the process has exited, or
    the clock has not passed [T] and the forced exit is still pending. *)
Definition within_ceiling (T : Z) (w : World) : Prop :=
  probe_handle_ok w /\ (exited w <> None \/ hard_exit_pending T w).

(** ** The error handler (app.js, lines 98-114) *)

(** A JavaScript value as far as its truthiness goes.  [JsNumber] holds
    the integral numbers; every other number except [NaN] is truthy like a
    non-zero integer. *)
Inductive JsValue : Type :=
| JsUndefined
| JsNull
| JsBoolean (b : bool)
| JsNumber (n : Z)
| JsNaN
| JsString (s : string)
| JsObject.

(** The value converts to [true] in a condition. *)
Definition truthy (v : JsValue) : bool :=
  match v with
  | JsUndefined | JsNull | JsNaN => false
  | JsBoolean b => b
  | JsNumber n => negb (n =? 0)
  | JsString s => negb (String.eqb s "")
  | JsObject => true
  end.

(** What reaches the handler: an instance of [Problem], or anything else.
    [stack] tells whether [err.stack] is truthy; [message] is the value of
    [err.message], [JsUndefined] when the property is missing. *)
Inductive Err : Type :=
| ErrProblem (p : Problem) (stack : bool)
| ErrOther (message : JsValue) (stack : bool).

(** The [details] of the 500 the handler builds: [err.message] when it
    is truthy, the thrown value itself otherwise. *)
Inductive Details500 : Type :=
| FromMessage (m : JsValue)
| FromValue (e : Err).

Inductive ErrResponse : Type :=
| Forwarded (p : Problem)                    (* err.send(res) *)
| Built (code : Z) (d : Details500).         (* new Problem(500, ...).send(res) *)

Record Handling : Type := mkHandling {
  logged : bool;       (* log.error(err) *)
  reset : bool;        (* dataConnection.resetConnection() *)
  response : ErrResponse
}.

Definition errorHandler (s : St.t) (err : Err) : Handling :=
  match err with
  | ErrProblem p stack =>
      mkHandling stack
        ((500 <=? status p) && negb (St.shutdown s))
        (Forwarded p)
  | ErrOther message stack =>
      mkHandling stack
        (negb (St.shutdown s))
        (Built 500
           (if truthy message then FromMessage message else FromValue err))
  end.

(** ** Readings used by the further properties *)

(** The status [process.exit()] would use now. *)
Definition exit_status (w : World) : Z :=
  match exitCode w with Some c => c | None => 0 end.

Definition cleanup_timer (i : nat) (T : Z) : Timer :=
  mkTimer i T FnCleanup None.

Definition is_cleanup_timer (t : Timer) : bool :=
  match fn t with FnCleanup => true | _ => false end.

Definition is_check_timer (t : Timer) : bool :=
  match fn t with FnCheckConnections => true | _ => false end.

Definition is_hard_exit_timer (t : Timer) : bool :=
  match fn t with FnHardExit => true | _ => false end.

Definition is_mounted (e : Effect) : bool :=
  match e with Mounted => true | _ => false end.

(** Pending close calls on connection [d]. *)
Definition pending_on (d : Dep) (w : World) : nat :=
  List.length (filter (fun p => eqb_dep d (fst p)) (closing w)).

(** [soft_step w w']: what a signal, the startup batch and a periodic
    batch have in common.  They leave the clock, [probeId], the pending
    closes, the exit and the [shutdown] flag alone, start no batch, set the
    exit code to 1 or not at all, and schedule [cleanup] or nothing. *)
Definition soft_step (w w' : World) : Prop :=
  env w' = env w
  /\ probeId w' = probeId w
  /\ now w' = now w
  /\ exited w' = exited w
  /\ closing w' = closing w
  /\ St.shutdown (state w') = St.shutdown (state w)
  /\ (List.length (inflight w') <= List.length (inflight w))%nat
  /\ (exitCode w' = exitCode w \/ exitCode w' = Some 1)
  /\ (timers w' = timers w
      \/ (St.shutdown (state w) = false
          /\ timers w' = timers w ++ [cleanup_timer (nextTimer w) (now w + 5000)])).

(** The process exits only from [cleanup]'s callbacks. *)
Definition exit_discipline (w : World) : Prop :=
  (exitCode w = None \/ exitCode w = Some 1)
  /\ (forall c, exited w = Some c -> c = exit_status w)
  /\ (St.shutdown (state w) = false ->
      exited w = None /\ closing w = []
      /\ forallb (fun t => negb (is_hard_exit_timer t)) (timers w) = true).

(** The interval is the timer that [probeId] names, it ticks every
    10000 ms, and it is pending as long as [cleanup] has not run. *)
Definition probe_loop (w : World) : Prop :=
  (forall t, In t (timers w) -> is_check_timer t = true ->
             probeId w = Some (tid t) /\ period t = Some 10000)
  /\ (St.shutdown (state w) = true ->
      forallb (fun t => negb (is_check_timer t)) (timers w) = true)
  /\ (St.shutdown (state w) = false -> is_test (env w) = false ->
      exists t, In t (timers w) /\ is_check_timer t = true
                /\ due t <= now w + 10000).

(** After a trigger at time [T - 5000]: [cleanup] is still to come and
    due at [T], or it has run and the forced exit is due by [T + 10000]. *)
Definition shutting_down_by (T : Z) (w : World) : Prop :=
  probe_handle_ok w
  /\ ((now w <= T /\ exists i, In (cleanup_timer i T) (timers w))
      \/ exists D, D <= T + 10000 /\ (exited w <> None \/ hard_exit_pending D w)).

(** Since time [T0] no [cleanup] was pending that is due before
    [T0 + 5000]. *)
Definition quiescent_since (T0 : Z) (w : World) : Prop :=
  T0 <= now w
  /\ (forall t, In t (timers w) -> is_cleanup_timer t = true ->
                T0 + 5000 <= due t /\ period t = None)
  /\ (St.shutdown (state w) = true -> T0 + 5000 <= now w).

(** The test environment: nothing was initialised. *)
Definition inert (w : World) : Prop :=
  startup w = false /\ inflight w = []
  /\ forallb (fun t => negb (is_check_timer t)) (timers w) = true
  /\ St.connections (state w) = St.connections St.initial
  /\ St.ready (state w) = false /\ St.mounted (state w) = false.

(** Calls and completions of [close] balance along the chain. *)
Definition closes_balanced (w : World) : Prop :=
  (forall d, count_effects (is_close_called d) w
             = (count_effects (is_close_done d) w + pending_on d w)%nat)
  /\ count_effects (is_close_called Email) w = count_effects (is_close_done Queue) w
  /\ count_effects (is_close_called Data) w = count_effects (is_close_done Email) w.

(** The listeners were attached when the startup batch settled, and not
    before. *)
Definition mounted_once (w : World) : Prop :=
  (startup w = true /\ count_effects is_mounted w = 0%nat)
  \/ (startup w = false /\ (count_effects is_mounted w <= 1)%nat).

(** Logs and queue pauses. *)
Definition plain (x : Effect) : bool :=
  match x with
  | LogInfo _ | LogError _ | LogVerbose _ | QueuePause => true
  | _ => false
  end.

(** What one event adds to the trace, newest first. *)
Definition added_by (w : World) (e : Event) (pre : list Effect) : Prop :=
  match e with
  | Signal | ProbeSettles _ _ => forallb plain pre = true
  | Elapse _ => pre = []
  | TimerFires k =>
      exists t, nth_error (timers w) k = Some t /\
        pre = match fn t with
              | FnCleanup =>
                  [CloseCalled Queue; ClearInterval; LogInfo "Cleaning up...";
                   LogInfo "Service no longer accepting traffic"]
              | FnCheckConnections => []
              | FnHardExit => [Exit (exit_status w)]
              end
  | StartupSettles _ =>
      exists logs, pre = LogVerbose "Listener workers attached" :: Mounted :: logs
                   /\ forallb plain logs = true
  | CloseCompletes k =>
      exists d cb, nth_error (closing w) k = Some (d, cb) /\
        pre = match cb with
              | ThenCloseEmail => [CloseCalled Email; CloseDone d]
              | ThenCloseData => [CloseCalled Data; CloseDone d]
              | ThenExit => [Exit (exit_status w); CloseDone d]
              end
  end.

(** Events other than a signal and a completed periodic batch. *)
Definition is_calm (e : Event) : bool :=
  match e with
  | Signal | ProbeSettles _ (Some _) => false
  | _ => true
  end.

(** Nothing has asked for a shutdown: no failure recorded, no cleanup or
    forced exit pending, no close under way. *)
Definition untroubled (w : World) : Prop :=
  exitCode w = None /\ exited w = None /\ closing w = []
  /\ St.shutdown (state w) = false
  /\ forallb is_check_timer (timers w) = true.

(** *** One close chain *)






(** A healthy service is told to stop: the startup checks and the first
    periodic batch succeed, a signal arrives at 15 s, and at 20 s the
    second tick starts a batch just before [cleanup] runs. *)
Definition graceful_stop : list Event :=
  [StartupSettles (Some (true, true, None)); Elapse 10000; TimerFires 0;
   ProbeSettles 0 (Some (true, true)); Elapse 5000; Signal; Elapse 5000;
   TimerFires 0; TimerFires 0].
(** ** Proof support *)

Ltac break_match :=
  match goal with
  | H : context [match ?x with _ => _ end] |- _ => destruct x eqn:?
  | |- context [match ?x with _ => _ end] => destruct x eqn:?
  end.

(** Runs compose, and an invariant of [step] is an invariant of [run]. *)
Lemma run_app (w : World) (es1 es2 : list Event) :
  run w (es1 ++ es2) =
  match run w es1 with Some w' => run w' es2 | None => None end.
Proof.
  revert w; induction es1 as [|e es1 IH]; intros w; simpl; [reflexivity|].
  destruct (step w e); [apply IH | reflexivity].
Qed.

Lemma run_invariant (P : World -> Prop) :
  (forall w e w', P w -> step w e = Some w' -> P w') ->
  forall es w w', P w -> run w es = Some w' -> P w'.
Proof.
  intros Hstep es; induction es as [|e es IH]; intros w w' Hw Hrun; simpl in Hrun.
  - now inversion Hrun; subst.
  - destruct (step w e) as [w1|] eqn:He; [|discriminate].
    eapply IH; [eapply Hstep; eauto | exact Hrun].
Qed.

Lemma reachable_invariant (P : World -> Prop) :
  (forall e throws, P (boot e throws)) ->
  (forall w e w', P w -> step w e = Some w' -> P w') ->
  forall w, Reachable w -> P w.
Proof.
  intros Hboot Hstep w (e & throws & es & Hrun).
  eapply run_invariant; eauto.
Qed.

Lemma reachable_step (w : World) (e : Event) (w' : World) :
  Reachable w -> step w e = Some w' -> Reachable w'.
Proof.
  intros (e0 & throws & es & Hrun) He.
  exists e0, throws, (es ++ [e]).
  rewrite run_app, Hrun; simpl; now rewrite He.
Qed.

Lemma step_alive (w : World) (e : Event) (w' : World) :
  step w e = Some w' -> exited w = None.
Proof.
  unfold step; destruct (exited w); [discriminate | reflexivity].
Qed.

(** *** What each function does to the [state] object *)

Lemma state_shutdown (w : World) : state (shutdown w) = state w.
Proof. unfold shutdown; simpl; now destruct (St.shutdown (state w)). Qed.

Lemma state_cleanup (w : World) :
  state (cleanup w) = St.set_shutdown true (state w).
Proof. unfold cleanup, clearInterval; simpl. now destruct (probeId w). Qed.

Lemma state_checkConnections (w : World) : state (checkConnections w) = state w.
Proof. unfold checkConnections; now destruct (St.shutdown (state w)). Qed.

Lemma state_run_close_cb (cb : CloseCb) (w : World) :
  state (run_close_cb cb w) = state w.
Proof. now destruct cb. Qed.

Lemma state_checkConnections_then (wm r0 r1 : bool) (w : World) :
  state (checkConnections_then wm (r0, r1) w) =
  St.mk (St.mkConnections r0 (St.email (St.connections (state w))) r1)
        r1
        (r0 && (St.email (St.connections (state w)) && (r1 && true)))
        (St.shutdown (state w)).
Proof.
  unfold checkConnections_then; simpl.
  repeat break_match; rewrite ?state_shutdown; reflexivity.
Qed.

Lemma state_settle_startup (r : option (bool * bool * option bool)) (w : World) :
  state (settle_startup r w) =
  let c := St.connections (state w) in
  let c' := match r with
            | Some (r0, r1, Some e) => St.mkConnections r0 e r1
            | Some (r0, r1, None) => St.mkConnections r0 (St.email c) r1
            | None => c
            end in
  St.mk c' (St.mounted (state w)) (St.every (St.values c'))
        (St.shutdown (state w)).
Proof.
  unfold settle_startup, startup_finally, startup_then, startup_catch, mountServices.
  destruct r as [[[r0 r1] [e|]]|]; reflexivity.
Qed.


Lemma step_state (w : World) (e : Event) (w' : World) :
  step w e = Some w' -> state w' = state_after w e.
Proof.
  unfold step; destruct (exited w); [discriminate|].
  destruct e as [|d|k|r|k r|k]; simpl.
  - intros H; inversion H; apply state_shutdown.
  - destruct (_ && _); [|discriminate]. intros H; now inversion H.
  - unfold fire. destruct (nth_error (timers w) k) as [[i t f p]|]; [|discriminate].
    simpl. destruct (t <=? now w); [|discriminate].
    intros H; inversion H; subst; clear H.
    unfold rearm; simpl.
    destruct f; cbn [run_timer_fn];
      rewrite ?state_cleanup, ?state_checkConnections; destruct p; reflexivity.
  - destruct (_ && _); [|discriminate]. intros H; now inversion H.
  - unfold settle_probe. destruct (nth_error (inflight w) k) as [wm|]; [|discriminate].
    intros H; inversion H; subst; clear H.
    destruct r as [[r0 r1]|]; [|reflexivity].
    now rewrite !state_checkConnections_then.
  - unfold complete_close.
    destruct (nth_error (closing w) k) as [[d cb]|]; [|discriminate].
    intros H; inversion H; subst; clear H.
    now rewrite state_run_close_cb.
Qed.

(** *** The callback of a periodic batch *)


Lemma exitCode_shutdown (w : World) : exitCode (shutdown w) = exitCode w.
Proof. unfold shutdown; simpl; now destruct (St.shutdown (state w)). Qed.

Lemma trace_shutdown (w : World) :
  trace (shutdown w) =
  QueuePause :: LogInfo "Received kill signal. Shutting down..." :: trace w.
Proof. unfold shutdown; simpl; now destruct (St.shutdown (state w)). Qed.

Lemma timers_shutdown (w : World) :
  timers (shutdown w) =
  if St.shutdown (state w) then timers w
  else timers w ++ [mkTimer (nextTimer w) (now w + 5000) FnCleanup None].
Proof. unfold shutdown; simpl; now destruct (St.shutdown (state w)). Qed.

(** When the recomputed [ready] is false the callback ends by setting the
    exit code and calling [shutdown()]. *)
Lemma checkConnections_then_unready (wm r0 r1 : bool) (w : World) :
  St.ready (health_after r0 r1 (state w)) = false ->
  checkConnections_then wm (r0, r1) w =
  shutdown (with_exitCode (Some 1)
              (emit (LogVerbose "State")
                 (with_state (health_after r0 r1) w))).
Proof.
  intros Hr.
  destruct w as [e [[d em q] m r sd] pid ec ex t tm nt su fl cl tr].
  simpl in Hr. unfold checkConnections_then.
  destruct r0, em, r1, wm; simpl in *; try discriminate; reflexivity.
Qed.

(** When it is true the callback only logs. *)
Lemma checkConnections_then_ready (wm r0 r1 : bool) (w : World) :
  St.ready (health_after r0 r1 (state w)) = true ->
  checkConnections_then wm (r0, r1) w =
  emit (LogVerbose "State")
    ((if negb wm then emit (LogInfo "Service ready to accept traffic")
      else fun w => w)
       (with_state (health_after r0 r1) w)).
Proof.
  intros Hr.
  destruct w as [e [[d em q] m r sd] pid ec ex t tm nt su fl cl tr].
  simpl in Hr. unfold checkConnections_then.
  destruct r0, em, r1, wm; simpl in *; try discriminate; reflexivity.
Qed.

Lemma step_probe_inv (w : World) (k : nat) (r : option (bool * bool)) (w' : World) :
  step w (ProbeSettles k r) = Some w' ->
  exists wm,
    nth_error (inflight w) k = Some wm /\
    exited w = None /\
    w' = match r with
         | Some results =>
             checkConnections_then wm results
               (with_inflight (remove_at k (inflight w)) w)
         | None => unhandledRejection (with_inflight (remove_at k (inflight w)) w)
         end.
Proof.
  unfold step, settle_probe. destruct (exited w); [discriminate|].
  destruct (nth_error (inflight w) k) as [wm|]; [|discriminate].
  intros H; inversion H; subst. now exists wm.
Qed.

(** ** The gate *)

(** C1: the readiness middleware checks the shutdown flag first and
    answers 503 "Server is shutting down" when it is set; otherwise it
    answers 503 "Server is not ready" when [ready] or [mounted] is false;
    otherwise it calls [next()] with the request it was given. *)
Theorem gate_evaluation_order :
  forall (Req : Type) (c : St.Connections) (m r : bool) (req : Req),
    gate (St.mk c m r true) req = Sent (mkProblem 503 "Server is shutting down")
    /\ gate (St.mk c m false false) req = Sent (mkProblem 503 "Server is not ready")
    /\ gate (St.mk c false r false) req = Sent (mkProblem 503 "Server is not ready")
    /\ gate (St.mk c true true false) req = Next req.
Proof.
  intros Req c m r req. repeat split; unfold gate; simpl; try reflexivity.
  destruct r; reflexivity.
Qed.

(** ** The ready flag *)



Lemma every_values (c : St.Connections) :
  St.every (St.values c) = St.data c && St.email c && St.queue c.
Proof. destruct c as [[] [] []]; reflexivity. Qed.

Lemma ready_recomputed_boot (e : NodeEnv) (throws : bool) :
  ready_recomputed (state (boot e throws)).
Proof. destruct e, throws; reflexivity. Qed.

Lemma ready_recomputed_step (w : World) (e : Event) (w' : World) :
  ready_recomputed (state w) -> step w e = Some w' ->
  ready_recomputed (state w').
Proof.
  intros Hw He. rewrite (step_state _ _ _ He). unfold ready_recomputed in *.
  destruct e as [|d|k|r|k [[r0 r1]|]|k]; cbn [state_after]; try exact Hw.
  - destruct (nth_error (timers w) k) as [[i t [] p]|]; simpl; exact Hw.
  - rewrite state_settle_startup; simpl.
    destruct r as [[[r0 r1] [em|]]|]; simpl;
      rewrite ?Bool.andb_true_r, ?Bool.andb_assoc; reflexivity.
  - rewrite state_checkConnections_then; simpl.
    rewrite ?Bool.andb_true_r, ?Bool.andb_assoc; reflexivity.
Qed.

(** C2: in every world the process can reach, [ready] is the conjunction
    of the three connection flags; an event that settles the startup batch
    or completes a periodic batch assigns [ready] the value of
    [Object.values(state.connections).every(x => x)], and every other
    event leaves [ready] and the connections record as they were. *)
Theorem ready_is_conjunction_of_health :
  forall (w : World) (e : Event) (w' : World),
    Reachable w -> step w e = Some w' ->
    ready_recomputed (state w)
    /\ ready_recomputed (state w')
    /\ if is_health_update e
       then St.ready (state w') = St.every (St.values (St.connections (state w')))
       else St.ready (state w') = St.ready (state w)
            /\ St.connections (state w') = St.connections (state w).
Proof.
  intros w e w' Hr He.
  assert (Hw : ready_recomputed (state w)).
  { apply (reachable_invariant (fun w => ready_recomputed (state w))); trivial.
    - apply ready_recomputed_boot.
    - intros; eapply ready_recomputed_step; eauto. }
  assert (Hw' : ready_recomputed (state w'))
    by (eapply ready_recomputed_step; eauto).
  repeat split; try assumption.
  destruct (is_health_update e) eqn:Hu.
  - rewrite every_values. exact Hw'.
  - rewrite (step_state _ _ _ He).
    destruct e as [|d|k|r|k [[r0 r1]|]|k]; cbn [state_after is_health_update] in *;
      try discriminate; auto.
    destruct (nth_error (timers w) k) as [[i t [] p]|]; simpl; auto.
Qed.

Lemma ready_is_conjunction_of_health_witness :
  St.ready (state (settle_startup (Some (true, false, None)) (boot EnvOther false)))
  = true && true && false.
Proof.
  apply (ready_is_conjunction_of_health
           (boot EnvOther false)
           (StartupSettles (Some (true, false, None)))
           (settle_startup (Some (true, false, None)) (boot EnvOther false))).
  - exists EnvOther, false, []. reflexivity.
  - reflexivity.
Defined.

(** ** The shutdown flag *)

Lemma shutdown_flag_step (w : World) (e : Event) (w' : World) :
  St.shutdown (state w) = true -> step w e = Some w' ->
  St.shutdown (state w') = true.
Proof.
  intros Hw He. rewrite (step_state _ _ _ He).
  destruct e as [|d|k|r|k [[r0 r1]|]|k]; cbn [state_after]; try exact Hw.
  - destruct (nth_error (timers w) k) as [[i t [] p]|]; simpl; auto.
  - rewrite state_settle_startup; exact Hw.
  - rewrite state_checkConnections_then; exact Hw.
Qed.

(** C6: once [state.shutdown] is true it is true in every later world,
    and the gate answers every later request with 503 "Server is shutting
    down". *)
Theorem shutdown_flag_is_permanent :
  forall (w : World) (es : list Event) (w' : World),
    St.shutdown (state w) = true -> run w es = Some w' ->
    St.shutdown (state w') = true
    /\ forall (Req : Type) (req : Req),
         gate (state w') req = Sent (mkProblem 503 "Server is shutting down").
Proof.
  intros w es w' Hw Hrun.
  assert (H : St.shutdown (state w') = true).
  { apply (run_invariant (fun w => St.shutdown (state w) = true)
             shutdown_flag_step es w w' Hw Hrun). }
  split; [exact H|]. intros Req req. unfold gate. now rewrite H.
Qed.

Lemma shutdown_flag_is_permanent_witness :
  St.shutdown
    (state (world_after EnvOther false
              [Signal; Elapse 5000; TimerFires 1; CloseCompletes 0;
               StartupSettles (Some (true, true, None))])) = true.
Proof.
  apply (shutdown_flag_is_permanent
           (world_after EnvOther false [Signal; Elapse 5000; TimerFires 1])
           [CloseCompletes 0; StartupSettles (Some (true, true, None))]).
  - vm_compute; reflexivity.
  - vm_compute; reflexivity.
Defined.

(** ** The mounted flag *)

Lemma mounted_step (w : World) (e : Event) (w' : World) :
  step w e = Some w' ->
  St.mounted (state w') =
  match e with
  | ProbeSettles _ (Some (_, r1)) => r1
  | _ => St.mounted (state w)
  end.
Proof.
  intros He. rewrite (step_state _ _ _ He).
  destruct e as [|d|k|r|k [[r0 r1]|]|k]; cbn [state_after]; try reflexivity.
  - destruct (nth_error (timers w) k) as [[i t [] p]|]; reflexivity.
  - rewrite state_settle_startup; reflexivity.
  - rewrite state_checkConnections_then; reflexivity.
Qed.

Lemma mounted_stays_false (es : list Event) :
  forall w w',
    St.mounted (state w) = false -> run w es = Some w' ->
    existsb is_probe_completion es = false ->
    St.mounted (state w') = false.
Proof.
  induction es as [|e es IH]; intros w w' Hm Hrun Hno; simpl in *.
  - now inversion Hrun; subst.
  - destruct (step w e) as [w1|] eqn:He; [|discriminate].
    apply Bool.orb_false_iff in Hno as [He' Hes].
    apply (IH w1 w'); auto.
    rewrite (mounted_step _ _ _ He).
    destruct e as [|d|k|r|k [[r0 r1]|]|k]; simpl in *; auto; discriminate.
Qed.

(** C10 (counterexample): a signal during the first five seconds makes
    [cleanup] run before the first periodic tick; the gate then answers
    "Server is shutting down" although no periodic batch has completed. *)
Lemma not_ready_until_first_probe_fails : ~ not_ready_until_first_probe.
Proof.
  intros H.
  specialize (H EnvOther false [Signal; Elapse 5000; TimerFires 1]
                (world_after EnvOther false [Signal; Elapse 5000; TimerFires 1])).
  vm_compute in H. specialize (H eq_refl eq_refl). discriminate H.
Qed.

(** C10 (amended): [mounted] is false at module load and is assigned by
    nothing but the callback of a periodic batch, so until the first such
    batch completes the gate admits no request: it answers 503 "Server is
    not ready" while [shutdown] is false, whatever the value of [ready],
    and 503 "Server is shutting down" once [cleanup] has set the flag. *)
Theorem gate_rejects_until_first_probe :
  forall (e : NodeEnv) (throws : bool) (es : list Event) (w : World),
    run (boot e throws) es = Some w ->
    existsb is_probe_completion es = false ->
    St.mounted (state w) = false
    /\ forall (Req : Type) (req : Req),
         gate (state w) req =
         Sent (if St.shutdown (state w)
               then mkProblem 503 "Server is shutting down"
               else mkProblem 503 "Server is not ready").
Proof.
  intros e throws es w Hrun Hno.
  assert (Hm : St.mounted (state w) = false).
  { apply (mounted_stays_false es (boot e throws) w);
      [destruct e, throws; reflexivity | exact Hrun | exact Hno]. }
  split; [exact Hm|]. intros Req req. unfold gate. rewrite Hm.
  destruct (St.shutdown (state w)); [reflexivity|].
  now rewrite Bool.orb_true_r.
Qed.

Lemma gate_rejects_until_first_probe_witness :
  St.ready (state (world_after EnvProduction false
                     [StartupSettles (Some (true, true, Some true));
                      Elapse 10000; TimerFires 0])) = true
  /\ gate (state (world_after EnvProduction false
                    [StartupSettles (Some (true, true, Some true));
                     Elapse 10000; TimerFires 0])) tt
     = Sent (mkProblem 503 "Server is not ready").
Proof.
  split; [vm_compute; reflexivity|].
  apply (gate_rejects_until_first_probe EnvProduction false
           [StartupSettles (Some (true, true, Some true));
            Elapse 10000; TimerFires 0]).
  - vm_compute; reflexivity.
  - reflexivity.
Defined.

Lemma probe_callback_unready (w : World) (k : nat) (r0 r1 : bool) (w' : World) :
  step w (ProbeSettles k (Some (r0, r1))) = Some w' ->
  St.ready (state w') = false ->
  exists w0,
    w' = shutdown w0
    /\ exitCode w0 = Some 1
    /\ state w0 = state w'
    /\ timers w0 = timers w
    /\ nextTimer w0 = nextTimer w
    /\ now w0 = now w.
Proof.
  intros He Hr.
  destruct (step_probe_inv _ _ _ _ He) as (wm & Hk & Hx & ->).
  rewrite state_checkConnections_then in Hr.
  rewrite checkConnections_then_unready by exact Hr.
  eexists; split; [reflexivity|].
  rewrite state_shutdown. repeat split; reflexivity.
Qed.

(** C7 (counterexample): with the queue probe answering true and then
    false, [mounted] goes from true back to false while [shutdown] is
    still false; with three overlapping batches answering true, false,
    true it becomes true twice. *)
Lemma mounted_once_and_for_all_fails :
  ~ mounted_at_most_once /\ ~ mounted_never_reverts.
Proof.
  split.
  - intros H.
    specialize (H EnvOther false
                  [StartupSettles (Some (true, true, None));
                   Elapse 10000; TimerFires 0;
                   Elapse 10000; TimerFires 0;
                   Elapse 10000; TimerFires 0;
                   ProbeSettles 0 (Some (true, true));
                   ProbeSettles 0 (Some (true, false));
                   ProbeSettles 0 (Some (true, true))]).
    vm_compute in H. lia.
  - intros H.
    specialize (H (world_after EnvOther false
                     [StartupSettles (Some (true, true, None));
                      Elapse 10000; TimerFires 0;
                      ProbeSettles 0 (Some (true, true));
                      Elapse 10000; TimerFires 0])
                  (ProbeSettles 0 (Some (true, false)))
                  (world_after EnvOther false
                     [StartupSettles (Some (true, true, None));
                      Elapse 10000; TimerFires 0;
                      ProbeSettles 0 (Some (true, true));
                      Elapse 10000; TimerFires 0;
                      ProbeSettles 0 (Some (true, false))])).
    assert (Hr : Reachable
                   (world_after EnvOther false
                      [StartupSettles (Some (true, true, None));
                       Elapse 10000; TimerFires 0;
                       ProbeSettles 0 (Some (true, true));
                       Elapse 10000; TimerFires 0])).
    { exists EnvOther, false,
        [StartupSettles (Some (true, true, None));
         Elapse 10000; TimerFires 0;
         ProbeSettles 0 (Some (true, true));
         Elapse 10000; TimerFires 0].
      vm_compute; reflexivity. }
    specialize (H Hr). vm_compute in H.
    specialize (H eq_refl eq_refl eq_refl). discriminate H.
Qed.

(** C7 (amended): the callback of every completed periodic batch sets
    [mounted] to the result of that batch's queue check, and no other
    event changes [mounted]; when the callback sets it to false it also
    leaves [ready] false, sets the exit code to 1 and ends by calling
    [shutdown()]. *)
Theorem mounted_follows_queue_probe :
  forall (w : World) (e : Event) (w' : World),
    step w e = Some w' ->
    match e with
    | ProbeSettles _ (Some (r0, r1)) =>
        St.mounted (state w') = r1
        /\ if r1 then True
           else St.ready (state w') = false
                /\ exitCode w' = Some 1
                /\ exists w0, w' = shutdown w0
    | _ => St.mounted (state w') = St.mounted (state w)
    end.
Proof.
  intros w e w' He. pose proof (mounted_step _ _ _ He) as Hm.
  destruct e as [|d|k|r|k [[r0 r1]|]|k]; auto.
  split; [exact Hm|]. destruct r1; [exact I|].
  assert (Hr : St.ready (state w') = false).
  { rewrite (step_state _ _ _ He). cbn [state_after].
    rewrite state_checkConnections_then. simpl.
    destruct r0, (St.email (St.connections (state w))); reflexivity. }
  destruct (probe_callback_unready _ _ _ _ _ He Hr) as (w0 & -> & Hc & _).
  rewrite exitCode_shutdown. eauto.
Qed.

Lemma mounted_follows_queue_probe_witness :
  St.mounted
    (state (world_after EnvOther false
              [StartupSettles (Some (true, true, None));
               Elapse 10000; TimerFires 0;
               ProbeSettles 0 (Some (true, true))])) = true.
Proof.
  apply (mounted_follows_queue_probe
           (world_after EnvOther false
              [StartupSettles (Some (true, true, None));
               Elapse 10000; TimerFires 0])
           (ProbeSettles 0 (Some (true, true)))).
  vm_compute; reflexivity.
Defined.

(** ** Periodic batches *)

(** C9: when the callback of a periodic batch leaves [ready] false, it
    sets [process.exitCode] to 1 and then calls [shutdown()]: the queue is
    paused and, unless [cleanup] has already run, [cleanup] is scheduled
    five seconds later. *)
Theorem unready_probe_triggers_shutdown :
  forall (w : World) (k : nat) (r0 r1 : bool) (w' : World),
    step w (ProbeSettles k (Some (r0, r1))) = Some w' ->
    St.ready (state w') = false ->
    exitCode w' = Some 1
    /\ (exists w0, w' = shutdown w0 /\ exitCode w0 = Some 1
                   /\ state w0 = state w')
    /\ (exists t, trace w' =
                  QueuePause
                  :: LogInfo "Received kill signal. Shutting down..." :: t)
    /\ timers w' =
       if St.shutdown (state w) then timers w
       else timers w ++ [mkTimer (nextTimer w) (now w + 5000) FnCleanup None].
Proof.
  intros w k r0 r1 w' He Hr.
  assert (Hsd : St.shutdown (state w') = St.shutdown (state w)).
  { rewrite (step_state _ _ _ He). cbn [state_after].
    now rewrite state_checkConnections_then. }
  destruct (probe_callback_unready _ _ _ _ _ He Hr)
    as (w0 & Hw' & Hc & Hs & Ht & Hn & Hnow).
  rewrite <- Hs in Hsd. clear He Hr. subst w'.
  rewrite exitCode_shutdown, trace_shutdown, timers_shutdown.
  rewrite Ht, Hn, Hnow, Hsd.
  repeat split; eauto.
Qed.

Lemma unready_probe_triggers_shutdown_witness :
  exitCode
    (world_after EnvOther false
       [StartupSettles (Some (true, true, None));
        Elapse 10000; TimerFires 0;
        ProbeSettles 0 (Some (false, true))]) = Some 1.
Proof.
  apply (unready_probe_triggers_shutdown
           (world_after EnvOther false
              [StartupSettles (Some (true, true, None));
               Elapse 10000; TimerFires 0])
           0 false true).
  - vm_compute; reflexivity.
  - vm_compute; reflexivity.
Defined.

Lemma closing_shutdown (w : World) : closing (shutdown w) = closing w.
Proof. unfold shutdown; simpl; now destruct (St.shutdown (state w)). Qed.

Lemma exited_shutdown (w : World) : exited (shutdown w) = exited w.
Proof. unfold shutdown; simpl; now destruct (St.shutdown (state w)). Qed.

(** C8 (failing input): a healthy service receives one signal; the
    second periodic tick starts a batch just before [cleanup] runs, and
    the batch completes afterwards with the queue check false (the queue is
    being closed).  The guard on [state.shutdown] was evaluated when the
    batch was started, so the callback runs in full: it overwrites
    [connections.queue], [ready] and [mounted], sets the exit code to 1 and
    calls [shutdown()], which pauses the queue a second time.  The process
    then exits with status 1; without the late completion the same run
    exits with status 0. *)
Theorem late_probe_callback_spoils_shutdown :
  (exists w w',
      run (boot EnvOther false) graceful_stop = Some w
      /\ St.shutdown (state w) = true
      /\ inflight w = [true]
      /\ state w = St.mk (St.mkConnections true true true) true true true
      /\ exitCode w = None
      /\ count_effects is_pause w = 1%nat
      /\ step w (ProbeSettles 0 (Some (true, false))) = Some w'
      /\ state w' = St.mk (St.mkConnections true true false) false false true
      /\ exitCode w' = Some 1
      /\ count_effects is_pause w' = 2%nat)
  /\ (exists w,
        run (boot EnvOther false)
            (graceful_stop
             ++ [ProbeSettles 0 (Some (true, false)); CloseCompletes 0;
                 CloseCompletes 0; CloseCompletes 0]) = Some w
        /\ exited w = Some 1)
  /\ (exists w,
        run (boot EnvOther false)
            (graceful_stop
             ++ [CloseCompletes 0; CloseCompletes 0; CloseCompletes 0]) = Some w
        /\ exited w = Some 0)
  /\ ~ late_probe_callback_is_noop.
Proof.
  split; [|split; [|split]].
  - eexists. eexists. split; [vm_compute; reflexivity|].
    repeat split; vm_compute; reflexivity.
  - eexists. split; [vm_compute; reflexivity | reflexivity].
  - eexists. split; [vm_compute; reflexivity | reflexivity].
  - intros H.
    specialize (H (world_after EnvOther false graceful_stop)
                  0%nat (Some (true, false))
                  (world_after EnvOther false
                     (graceful_stop ++ [ProbeSettles 0 (Some (true, false))]))).
    assert (Hr : Reachable (world_after EnvOther false graceful_stop)).
    { exists EnvOther, false, graceful_stop. vm_compute; reflexivity. }
    specialize (H Hr). vm_compute in H.
    destruct (H eq_refl eq_refl) as [Hs _]. discriminate Hs.
Qed.

(** What the callback of a batch that settles after [cleanup] does and
    does not do.  A tick that comes after [cleanup] starts no batch.  The
    callback of a batch in flight overwrites [connections.data],
    [connections.queue], [ready] and [mounted] from its results and, when
    [ready] comes out false, sets the exit code to 1 and calls
    [shutdown()]; it never changes [shutdown] or [connections.email],
    schedules no timer, starts no close and does not exit.  A batch that
    rejected leaves the state object as it was. *)
Theorem late_probe_callback_effect :
  forall (w : World) (k : nat) (r : option (bool * bool)) (w' : World),
    St.shutdown (state w) = true ->
    step w (ProbeSettles k r) = Some w' ->
    checkConnections w = w
    /\ St.shutdown (state w') = true
    /\ St.email (St.connections (state w')) = St.email (St.connections (state w))
    /\ timers w' = timers w
    /\ closing w' = closing w
    /\ exited w' = None
    /\ match r with
       | Some (r0, r1) =>
           St.data (St.connections (state w')) = r0
           /\ St.queue (St.connections (state w')) = r1
           /\ St.mounted (state w') = r1
           /\ St.ready (state w') =
              r0 && St.email (St.connections (state w)) && r1
           /\ if St.ready (state w') then exitCode w' = exitCode w
              else exitCode w' = Some 1 /\ exists w0, w' = shutdown w0
       | None => state w' = state w
       end.
Proof.
  intros w k r w' Hsd He.
  split. { unfold checkConnections. now rewrite Hsd. }
  destruct (step_probe_inv _ _ _ _ He) as (wm & Hk & Hx & Hw').
  destruct r as [[r0 r1]|].
  - set (w1 := with_inflight (remove_at k (inflight w)) w) in *.
    assert (Hand : forall a b c : bool, a && (b && (c && true)) = a && b && c)
      by (now intros [] [] []).
    destruct (St.ready (health_after r0 r1 (state w1))) eqn:Hr.
    + rewrite (checkConnections_then_ready _ _ _ _ Hr) in Hw'. subst w'.
      change (state w1) with (state w) in Hr.
      assert (Hr' : r0 && St.email (St.connections (state w)) && r1 = true)
        by (rewrite <- Hand; exact Hr).
      destruct wm; cbn -[andb health_after];
        rewrite Hr; cbn -[andb]; rewrite Hr'; auto 12.
    + rewrite (checkConnections_then_unready _ _ _ _ Hr) in Hw'. subst w'.
      change (state w1) with (state w) in Hr.
      rewrite timers_shutdown, closing_shutdown, exited_shutdown,
        exitCode_shutdown, state_shutdown.
      assert (Hr' : r0 && St.email (St.connections (state w)) && r1 = false)
        by (rewrite <- Hand; exact Hr).
      cbn -[andb health_after shutdown]. rewrite Hr.
      change (St.shutdown (health_after r0 r1 (state w)))
        with (St.shutdown (state w)).
      rewrite Hsd. cbn -[andb shutdown]. eauto 12.
  - subst w'. simpl. repeat split; assumption.
Qed.

Lemma late_probe_callback_effect_witness :
  St.mounted
    (state (world_after EnvOther false
              [Elapse 10000; TimerFires 0; Signal; Elapse 5000;
               TimerFires 1; ProbeSettles 0 (Some (true, true))])) = true.
Proof.
  apply (late_probe_callback_effect
           (world_after EnvOther false
              [Elapse 10000; TimerFires 0; Signal; Elapse 5000; TimerFires 1])
           0 (Some (true, true))).
  - vm_compute; reflexivity.
  - vm_compute; reflexivity.
Defined.

(** ** Repeated shutdown triggers *)

(** C3 (failing input): two signals before the five-second timer of the
    first has fired.  [state.shutdown] is still false at the second call
    of [shutdown], so [cleanup] is scheduled twice and runs twice: the
    queue connection is asked to close twice and two close chains are
    pending. *)
Theorem second_signal_repeats_cleanup :
  (exists w,
      run (boot EnvOther false)
          [Signal; Signal; Elapse 5000; TimerFires 1; TimerFires 0] = Some w
      /\ cleanups w = 2%nat
      /\ closing w = [(Queue, ThenCloseEmail); (Queue, ThenCloseEmail)])
  /\ ~ shutdown_is_idempotent.
Proof.
  split.
  - eexists. split; [vm_compute; reflexivity|]. split; reflexivity.
  - intros H.
    specialize (H EnvOther false
                  [Signal; Signal; Elapse 5000; TimerFires 1; TimerFires 0]
                  (world_after EnvOther false
                     [Signal; Signal; Elapse 5000; TimerFires 1; TimerFires 0])).
    vm_compute in H. specialize (H eq_refl). lia.
Qed.

(** ** One step, case by case *)

Lemma step_cases (w : World) (e : Event) (w' : World) :
  step w e = Some w' ->
  exited w = None /\
  match e with
  | Signal => w' = shutdown w
  | Elapse d =>
      0 < d /\ (forall t, In t (timers w) -> now w + d <= due t)
      /\ w' = with_now (now w + d) w
  | TimerFires k =>
      exists t, nth_error (timers w) k = Some t /\ due t <= now w
                /\ w' = run_timer_fn (fn t) (rearm k t w)
  | StartupSettles r => w' = settle_startup r w
  | ProbeSettles k r =>
      exists wm, nth_error (inflight w) k = Some wm /\
        w' = match r with
             | Some results =>
                 checkConnections_then wm results
                   (with_inflight (remove_at k (inflight w)) w)
             | None =>
                 unhandledRejection (with_inflight (remove_at k (inflight w)) w)
             end
  | CloseCompletes k =>
      exists d cb, nth_error (closing w) k = Some (d, cb) /\
        w' = run_close_cb cb
               (emit (CloseDone d) (with_closing (remove_at k (closing w)) w))
  end.
Proof.
  intros He. split; [exact (step_alive _ _ _ He)|].
  unfold step in He. destruct (exited w); [discriminate|].
  destruct e as [|d|k|r|k r|k].
  - now inversion He.
  - destruct (0 <? d) eqn:Hd; [|discriminate]. simpl in He.
    destruct (forallb _ _) eqn:Hall; [|discriminate]. inversion He; subst.
    repeat split; [lia|].
    intros t Ht. rewrite forallb_forall in Hall.
    specialize (Hall t Ht). lia.
  - unfold fire in He. destruct (nth_error (timers w) k) as [t|]; [|discriminate].
    destruct (due t <=? now w) eqn:Hdue; [|discriminate].
    inversion He; subst. exists t. repeat split. lia.
  - destruct (_ && _); [|discriminate]. now inversion He.
  - unfold settle_probe in He.
    destruct (nth_error (inflight w) k) as [wm|]; [|discriminate].
    inversion He; subst. eauto.
  - unfold complete_close in He.
    destruct (nth_error (closing w) k) as [[d cb]|]; [|discriminate].
    inversion He; subst. eauto.
Qed.

(** *** What each function leaves alone *)

Lemma trace_checkConnections (w : World) : trace (checkConnections w) = trace w.
Proof. unfold checkConnections; now destruct (St.shutdown (state w)). Qed.

Lemma closing_checkConnections (w : World) :
  closing (checkConnections w) = closing w.
Proof. unfold checkConnections; now destruct (St.shutdown (state w)). Qed.

Lemma trace_cleanup (w : World) :
  trace (cleanup w) =
  CloseCalled Queue :: ClearInterval :: LogInfo "Cleaning up..."
    :: LogInfo "Service no longer accepting traffic" :: trace w.
Proof. unfold cleanup, clearInterval; simpl. now destruct (probeId w). Qed.

Lemma closing_cleanup (w : World) :
  closing (cleanup w) = closing w ++ [(Queue, ThenCloseEmail)].
Proof. unfold cleanup, clearInterval; simpl. now destruct (probeId w). Qed.

Lemma closing_rearm (k : nat) (t : Timer) (w : World) :
  closing (rearm k t w) = closing w.
Proof. unfold rearm; now destruct (period t). Qed.

Lemma trace_rearm (k : nat) (t : Timer) (w : World) :
  trace (rearm k t w) = trace w.
Proof. unfold rearm; now destruct (period t). Qed.

Lemma closing_checkConnections_then (wm : bool) (r : bool * bool) (w : World) :
  closing (checkConnections_then wm r w) = closing w.
Proof.
  destruct r as [r0 r1]. unfold checkConnections_then.
  repeat break_match; rewrite ?closing_shutdown; reflexivity.
Qed.

Lemma trace_checkConnections_then (wm : bool) (r : bool * bool) (w : World) :
  exists pre, trace (checkConnections_then wm r w) = pre ++ trace w
              /\ forallb quiet pre = true.
Proof.
  destruct r as [r0 r1]. unfold checkConnections_then.
  repeat break_match; rewrite ?trace_shutdown; simpl;
    match goal with
    | |- exists pre, ?l = _ /\ _ =>
        match l with
        | ?a :: ?b :: ?c :: ?d :: trace w => exists [a; b; c; d]
        | ?a :: ?b :: ?c :: trace w => exists [a; b; c]
        | ?a :: ?b :: trace w => exists [a; b]
        | ?a :: trace w => exists [a]
        end
    end; split; reflexivity.
Qed.

Lemma trace_settle_startup (r : option (bool * bool * option bool)) (w : World) :
  exists pre, trace (settle_startup r w) = pre ++ trace w
              /\ forallb quiet pre = true.
Proof.
  destruct r as [[[r0 r1] [em|]]|]; simpl;
    match goal with
    | |- exists pre, ?l = _ /\ _ =>
        match l with
        | ?a :: ?b :: ?c :: ?d :: trace w => exists [a; b; c; d]
        | ?a :: ?b :: ?c :: trace w => exists [a; b; c]
        end
    end; split; reflexivity.
Qed.

Lemma closing_settle_startup (r : option (bool * bool * option bool)) (w : World) :
  closing (settle_startup r w) = closing w.
Proof. destruct r as [[[r0 r1] [em|]]|]; reflexivity. Qed.

(** ** The close chain *)

Lemma in_firstn {A : Type} (x : A) (k : nat) (l : list A) :
  In x (firstn k l) -> In x l.
Proof.
  revert l; induction k as [|k IH]; intros [|y l]; simpl; try tauto.
  intros [H|H]; [now left | right; now apply IH].
Qed.

Lemma in_skipn {A : Type} (x : A) (k : nat) (l : list A) :
  In x (skipn k l) -> In x l.
Proof.
  revert l; induction k as [|k IH]; intros [|y l]; simpl; try tauto.
  intros H; right; now apply IH.
Qed.

Lemma in_remove_at {A : Type} (x : A) (k : nat) (l : list A) :
  In x (remove_at k l) -> In x l.
Proof.
  unfold remove_at. rewrite in_app_iff.
  intros [H|H]; [eapply in_firstn | eapply in_skipn]; eauto.
Qed.

Lemma forallb_remove_at {A : Type} (p : A -> bool) (k : nat) (l : list A) :
  forallb p l = true -> forallb p (remove_at k l) = true.
Proof.
  intros H. rewrite forallb_forall in H. apply forallb_forall.
  intros x Hx. apply H. eapply in_remove_at; eauto.
Qed.

Lemma forallb_nth_error {A : Type} (p : A -> bool) (k : nat) (l : list A) (x : A) :
  forallb p l = true -> nth_error l k = Some x -> p x = true.
Proof.
  intros H Hk. rewrite forallb_forall in H. apply H.
  eapply nth_error_In; eauto.
Qed.

Ltac split_andb :=
  repeat match goal with
         | H : _ && _ = true |- _ => apply Bool.andb_true_iff in H; destruct H
         end.

Lemma trace_ordered_quiet (x : Effect) (t : list Effect) :
  quiet x = true -> trace_ordered t = true -> trace_ordered (x :: t) = true.
Proof.
  unfold trace_ordered. intros Hq Ht. split_andb.
  destruct x; try discriminate Hq;
    destruct t as [|[| | | | | |[]|[]|] t]; simpl in *;
    try discriminate; split_andb;
    repeat (apply Bool.andb_true_iff; split); assumption || reflexivity.
Qed.

Lemma trace_ordered_prefix (pre t : list Effect) :
  forallb quiet pre = true -> trace_ordered t = true ->
  trace_ordered (pre ++ t) = true.
Proof.
  induction pre as [|x pre IH]; simpl; intros Hq Ht; [exact Ht|].
  apply Bool.andb_true_iff in Hq as [Hx Hq].
  apply trace_ordered_quiet; auto.
Qed.

Lemma trace_ordered_link (a b : Effect) (t : list Effect) :
  match a, b with
  | CloseCalled Queue, ClearInterval
  | CloseCalled Email, CloseDone Queue
  | CloseCalled Data, CloseDone Email
  | Exit _, CloseDone Data => True
  | _, _ => False
  end ->
  trace_ordered t = true -> trace_ordered (a :: b :: t) = true.
Proof.
  unfold trace_ordered. intros Hab Ht. split_andb.
  destruct a as [| | | | | |[]|[]|]; try contradiction;
    destruct b as [| | | | | |[]|[]|]; try contradiction;
    destruct t as [|[| | | | | |[]|[]|] t]; simpl in *;
    try discriminate; split_andb;
    repeat (apply Bool.andb_true_iff; split); assumption || reflexivity.
Qed.

Lemma chain_ordered_boot (e : NodeEnv) (throws : bool) :
  chain_ordered (boot e throws).
Proof. destruct e, throws; split; reflexivity. Qed.

Lemma chain_ordered_step (w : World) (e : Event) (w' : World) :
  chain_ordered w -> step w e = Some w' -> chain_ordered w'.
Proof.
  intros [Hc Ht] He. destruct (step_cases _ _ _ He) as [_ Hcase].
  unfold chain_ordered.
  destruct e as [|d|k|r|k r|k].
  - subst w'. rewrite closing_shutdown, trace_shutdown. split; [exact Hc|].
    now repeat apply trace_ordered_quiet.
  - destruct Hcase as (_ & _ & ->). now split.
  - destruct Hcase as (t & Hk & _ & ->).
    destruct (fn t); cbn [run_timer_fn].
    + rewrite closing_cleanup, trace_cleanup, closing_rearm, trace_rearm.
      split.
      * rewrite forallb_app, Hc. reflexivity.
      * apply trace_ordered_link; [exact I|].
        now repeat apply trace_ordered_quiet.
    + rewrite closing_checkConnections, trace_checkConnections,
        closing_rearm, trace_rearm. now split.
    + unfold process_exit. cbn [closing trace with_exited emit].
      rewrite closing_rearm, trace_rearm. split; [exact Hc|].
      now apply trace_ordered_quiet.
  - subst w'. rewrite closing_settle_startup. split; [exact Hc|].
    destruct (trace_settle_startup r w) as (pre & -> & Hq).
    now apply trace_ordered_prefix.
  - destruct Hcase as (wm & Hk & ->). destruct r as [r|].
    + rewrite closing_checkConnections_then. split; [exact Hc|].
      destruct (trace_checkConnections_then wm r
                  (with_inflight (remove_at k (inflight w)) w))
        as (pre & -> & Hq).
      now apply trace_ordered_prefix.
    + split; [exact Hc|]. now apply (trace_ordered_quiet (LogError _)).
  - destruct Hcase as (d & cb & Hk & ->).
    pose proof (forallb_nth_error _ _ _ _ Hc Hk) as Hp.
    pose proof (forallb_remove_at paired k _ Hc) as Hrest.
    destruct d, cb; try discriminate Hp; cbn.
    + split; [rewrite forallb_app, Hrest; reflexivity|].
      now apply trace_ordered_link.
    + split; [rewrite forallb_app, Hrest; reflexivity|].
      now apply trace_ordered_link.
    + split; [exact Hrest|]. now apply trace_ordered_link.
Qed.

(** One complete chain, oldest effect last. *)
Example close_chain_trace :
  trace (world_after EnvTest false
           [Signal; Elapse 5000; TimerFires 0; CloseCompletes 0;
            CloseCompletes 0; CloseCompletes 0])
  = [Exit 0; CloseDone Data; CloseCalled Data; CloseDone Email;
     CloseCalled Email; CloseDone Queue; CloseCalled Queue; ClearInterval;
     LogInfo "Cleaning up..."; LogInfo "Service no longer accepting traffic";
     QueuePause; LogInfo "Received kill signal. Shutting down..."].
Proof. vm_compute; reflexivity. Qed.

(** ** Timers and the hard ceiling *)

Lemma keeps_timers_refl (w : World) : keeps_timers w w.
Proof.
  repeat split; auto. exists []. rewrite app_nil_r. split; [reflexivity|].
  intros t [].
Qed.

Lemma keeps_timers_same (w w' : World) :
  probeId w' = probeId w -> now w' = now w -> nextTimer w' = nextTimer w ->
  timers w' = timers w -> keeps_timers w w'.
Proof.
  intros Hp Hn Hx Ht. repeat split; auto; [lia|].
  exists []. rewrite app_nil_r. split; [exact Ht|]. intros t [].
Qed.

Lemma keeps_timers_trans (w1 w2 w3 : World) :
  keeps_timers w1 w2 -> keeps_timers w2 w3 -> keeps_timers w1 w3.
Proof.
  intros (Hp1 & Hn1 & Hx1 & e1 & Ht1 & He1) (Hp2 & Hn2 & Hx2 & e2 & Ht2 & He2).
  repeat split; try congruence; try lia.
  exists (e1 ++ e2). rewrite Ht2, Ht1, app_assoc. split; [reflexivity|].
  intros t Ht. apply in_app_iff in Ht as [Ht|Ht].
  - now apply He1.
  - specialize (He2 t Ht). lia.
Qed.

Lemma keeps_timers_shutdown (w : World) : keeps_timers w (shutdown w).
Proof.
  unfold shutdown. cbn [state emit].
  destruct (negb (St.shutdown (state w))).
  - repeat split; simpl; auto.
    eexists. split; [reflexivity|]. intros t [<-|[]]. simpl. lia.
  - now apply keeps_timers_same.
Qed.

Lemma keeps_timers_checkConnections (w : World) :
  keeps_timers w (checkConnections w).
Proof.
  unfold checkConnections. destruct (negb (St.shutdown (state w))).
  - now apply keeps_timers_same.
  - apply keeps_timers_refl.
Qed.

Lemma keeps_timers_checkConnections_then (wm : bool) (r : bool * bool) (w : World) :
  keeps_timers w (checkConnections_then wm r w).
Proof.
  destruct r as [r0 r1]. unfold checkConnections_then.
  repeat break_match;
    try (eapply keeps_timers_trans; [|apply keeps_timers_shutdown]);
    now apply keeps_timers_same.
Qed.

Lemma keeps_timers_settle_startup (r : option (bool * bool * option bool)) (w : World) :
  keeps_timers w (settle_startup r w).
Proof. destruct r as [[[r0 r1] [em|]]|]; now apply keeps_timers_same. Qed.

Lemma keeps_timers_run_close_cb (cb : CloseCb) (w : World) :
  keeps_timers w (run_close_cb cb w).
Proof. destruct cb; now apply keeps_timers_same. Qed.

Lemma in_remove_at_other {A : Type} (x y : A) (k : nat) (l : list A) :
  In x l -> nth_error l k = Some y -> x <> y -> In x (remove_at k l).
Proof.
  unfold remove_at. revert l; induction k as [|k IH]; intros [|z l]; simpl;
    try discriminate; try tauto.
  - intros [->|H] Hy Hne; [congruence | exact H].
  - intros [->|H] Hy Hne; [now left | right; apply IH; auto].
Qed.

Lemma timers_cleanup (w : World) :
  timers (cleanup w) =
  match probeId w with
  | Some i => filter (fun t => negb (Nat.eqb (tid t) i)) (timers w)
  | None => timers w
  end ++ [hard_exit_timer (nextTimer w) (now w + 10000)].
Proof. unfold cleanup, clearInterval; simpl. now destruct (probeId w). Qed.

Lemma fields_cleanup (w : World) :
  probeId (cleanup w) = probeId w /\ now (cleanup w) = now w
  /\ nextTimer (cleanup w) = S (nextTimer w) /\ exited (cleanup w) = exited w.
Proof.
  destruct w as [e s [i|] ec ex t tm nt su fl cl tr];
    repeat split; reflexivity.
Qed.

Lemma fields_rearm (k : nat) (t : Timer) (w : World) :
  probeId (rearm k t w) = probeId w /\ now (rearm k t w) = now w
  /\ nextTimer (rearm k t w) = nextTimer w /\ exited (rearm k t w) = exited w.
Proof. unfold rearm; destruct (period t); repeat split; reflexivity. Qed.

Lemma in_timers_rearm (k : nat) (t x : Timer) (w : World) :
  nth_error (timers w) k = Some t ->
  In x (timers (rearm k t w)) ->
  exists y, In y (timers w) /\ tid x = tid y /\ fn x = fn y.
Proof.
  intros Hk. unfold rearm. destruct (period t); simpl.
  - rewrite in_app_iff; intros [H|[<-|[]]].
    + exists x. split; [eapply in_remove_at; eauto | auto].
    + exists t. split; [eapply nth_error_In; eauto | auto].
  - intros H. exists x. split; [eapply in_remove_at; eauto | auto].
Qed.

Lemma timers_rearm_keep (k : nat) (t x : Timer) (w : World) :
  nth_error (timers w) k = Some t -> In x (timers w) -> x <> t ->
  In x (timers (rearm k t w)).
Proof.
  intros Hk Hx Hne. unfold rearm.
  destruct (period t); simpl; rewrite ?in_app_iff; [left|];
    eapply in_remove_at_other; eauto.
Qed.

Lemma probe_handle_ok_keeps (w w' : World) :
  probe_handle_ok w -> keeps_timers w w' -> probe_handle_ok w'.
Proof.
  unfold probe_handle_ok.
  intros Hok (Hp & _ & Hx & extra & Ht & Hfresh). rewrite Hp.
  destruct (probeId w) as [i|]; [|exact I].
  destruct Hok as [Hlt Hall]. split; [lia|].
  intros t Hin Hi. rewrite Ht in Hin. apply in_app_iff in Hin as [Hin|Hin].
  - now apply Hall.
  - specialize (Hfresh t Hin). lia.
Qed.

Lemma probe_handle_ok_rearm (k : nat) (t : Timer) (w : World) :
  nth_error (timers w) k = Some t ->
  probe_handle_ok w -> probe_handle_ok (rearm k t w).
Proof.
  intros Hk. unfold probe_handle_ok.
  destruct (fields_rearm k t w) as (-> & _ & -> & _).
  destruct (probeId w) as [i|]; [|trivial].
  intros [Hlt Hall]. split; [exact Hlt|].
  intros x Hx Hi.
  destruct (in_timers_rearm _ _ _ _ Hk Hx) as (y & Hy & Htid & ->).
  apply Hall; [exact Hy | congruence].
Qed.

Lemma probe_handle_ok_cleanup (w : World) :
  probe_handle_ok w -> probe_handle_ok (cleanup w).
Proof.
  unfold probe_handle_ok.
  destruct (fields_cleanup w) as (-> & _ & -> & _). rewrite timers_cleanup.
  destruct (probeId w) as [i|]; [|trivial].
  intros [Hlt Hall]. split; [lia|].
  intros x Hx Hi. apply in_app_iff in Hx as [Hx|[<-|[]]].
  - apply filter_In in Hx as [Hx _]. now apply Hall.
  - simpl in Hi. lia.
Qed.

Lemma probe_handle_ok_boot (e : NodeEnv) (throws : bool) :
  probe_handle_ok (boot e throws).
Proof.
  destruct e, throws; cbn; try exact I; (split; [lia|]);
    intros t Ht Hi; cbn in Ht;
    repeat (destruct Ht as [<-|Ht]; [try reflexivity; simpl in Hi; lia|]);
    destruct Ht.
Qed.

Lemma step_keeps_timers (w : World) (e : Event) (w' : World) :
  step w e = Some w' ->
  match e with
  | Elapse _ | TimerFires _ => True
  | _ => keeps_timers w w'
  end.
Proof.
  intros He. destruct (step_cases _ _ _ He) as [_ Hcase].
  destruct e as [|d|k|r|k r|k]; trivial.
  - subst w'. apply keeps_timers_shutdown.
  - subst w'. apply keeps_timers_settle_startup.
  - destruct Hcase as (wm & _ & ->). destruct r as [r|].
    + eapply keeps_timers_trans; [|apply keeps_timers_checkConnections_then].
      now apply keeps_timers_same.
    + now apply keeps_timers_same.
  - destruct Hcase as (d & cb & _ & ->).
    eapply keeps_timers_trans; [|apply keeps_timers_run_close_cb].
    now apply keeps_timers_same.
Qed.

Lemma probe_handle_ok_step (w : World) (e : Event) (w' : World) :
  probe_handle_ok w -> step w e = Some w' -> probe_handle_ok w'.
Proof.
  intros Hok He. pose proof (step_keeps_timers _ _ _ He) as Hk.
  destruct (step_cases _ _ _ He) as [_ Hcase].
  destruct e as [|d|k|r|k r|k];
    try (eapply probe_handle_ok_keeps; eassumption).
  - destruct Hcase as (_ & _ & ->). exact Hok.
  - destruct Hcase as (t & Hnth & _ & ->).
    pose proof (probe_handle_ok_rearm _ _ _ Hnth Hok) as Hok'.
    destruct (fn t); cbn [run_timer_fn].
    + now apply probe_handle_ok_cleanup.
    + eapply probe_handle_ok_keeps; [exact Hok'|].
      apply keeps_timers_checkConnections.
    + eapply probe_handle_ok_keeps; [exact Hok'|].
      now apply keeps_timers_same.
Qed.

Lemma reachable_probe_handle_ok (w : World) :
  Reachable w -> probe_handle_ok w.
Proof.
  apply (reachable_invariant probe_handle_ok).
  - apply probe_handle_ok_boot.
  - apply probe_handle_ok_step.
Qed.

Lemma hard_exit_pending_keeps (T : Z) (w w' : World) :
  hard_exit_pending T w -> keeps_timers w w' -> hard_exit_pending T w'.
Proof.
  intros [Hn (i & Hi)] (_ & Hnow & _ & extra & Ht & _).
  split; [lia|]. exists i. rewrite Ht. apply in_app_iff. now left.
Qed.

Lemma within_ceiling_step (T : Z) (w : World) (e : Event) (w' : World) :
  within_ceiling T w -> step w e = Some w' -> within_ceiling T w'.
Proof.
  intros [Hok Hc] He. split; [eapply probe_handle_ok_step; eauto|].
  pose proof (step_keeps_timers _ _ _ He) as Hk.
  destruct (step_cases _ _ _ He) as [Halive Hcase].
  destruct Hc as [Hc|Hp]; [congruence|].
  destruct e as [|d|k|r|k r|k];
    try (right; eapply hard_exit_pending_keeps; eassumption).
  - destruct Hcase as (_ & Hdue & ->). right.
    destruct Hp as [Hn (i & Hi)]. split.
    + specialize (Hdue _ Hi). simpl in *. lia.
    + exists i. exact Hi.
  - destruct Hcase as (t & Hnth & _ & ->).
    destruct Hp as [Hn (i & Hi)].
    destruct (fn t) eqn:Hfn; cbn [run_timer_fn].
    + right.
      assert (Hne : hard_exit_timer i T <> t)
        by (intros <-; discriminate Hfn).
      pose proof (timers_rearm_keep _ _ _ _ Hnth Hi Hne) as Hi'.
      pose proof (probe_handle_ok_rearm _ _ _ Hnth Hok) as Hok'.
      unfold hard_exit_pending.
      destruct (fields_cleanup (rearm k t w)) as (_ & -> & _ & _).
      destruct (fields_rearm k t w) as (_ & -> & _ & _).
      split; [exact Hn|]. exists i. rewrite timers_cleanup.
      apply in_app_iff. left.
      unfold probe_handle_ok in Hok'.
      destruct (probeId (rearm k t w)) as [p|]; [|exact Hi'].
      apply filter_In. split; [exact Hi'|].
      apply Bool.negb_true_iff, Nat.eqb_neq. intros Heq.
      destruct Hok' as [_ Hall]. specialize (Hall _ Hi' Heq). discriminate Hall.
    + right.
      assert (Hne : hard_exit_timer i T <> t)
        by (intros <-; discriminate Hfn).
      pose proof (timers_rearm_keep _ _ _ _ Hnth Hi Hne) as Hi'.
      apply (hard_exit_pending_keeps T (rearm k t w));
        [|apply keeps_timers_checkConnections].
      destruct (fields_rearm k t w) as (_ & Hnow & _ & _).
      split; [lia|]. now exists i.
    + left. unfold process_exit. simpl. discriminate.
Qed.

Lemma fire_hard_exit (w : World) (j i : nat) (T : Z) :
  exited w = None ->
  nth_error (timers w) j = Some (hard_exit_timer i T) -> T <= now w ->
  exits_when_fired w j.
Proof.
  intros Hx Hj HT. unfold exits_when_fired, step, fire. rewrite Hx, Hj.
  cbn [due hard_exit_timer fn run_timer_fn].
  destruct (T <=? now w) eqn:Hle; [|lia].
  eexists. eexists. split; [reflexivity|]. reflexivity.
Qed.

(** C5: when the cleanup timer fires, [cleanup] sets a timeout of 10000
    milliseconds whose callback is [process.exit()], whatever the state of
    the connections.  Whatever happens afterwards, and in particular when
    no close callback ever runs, the process is either gone or the clock
    has not passed the ceiling and that timeout is still pending; once the
    ceiling is reached the timeout fires and the process exits. *)
Theorem hard_ceiling_bounds_cleanup :
  forall (w : World) (k : nat) (t : Timer) (w1 : World)
         (es : list Event) (w2 : World),
    Reachable w ->
    nth_error (timers w) k = Some t -> fn t = FnCleanup ->
    step w (TimerFires k) = Some w1 ->
    run w1 es = Some w2 ->
    now w1 = now w
    /\ (exists i, In (hard_exit_timer i (now w + 10000)) (timers w1))
    /\ match exited w2 with
       | Some _ => True
       | None =>
           now w2 <= now w + 10000
           /\ exists j i,
                nth_error (timers w2) j = Some (hard_exit_timer i (now w + 10000))
                /\ (now w2 < now w + 10000 \/ exits_when_fired w2 j)
       end.
Proof.
  intros w k t w1 es w2 Hr Hk Hfn He Hrun.
  destruct (step_cases _ _ _ He) as [Halive (t' & Hk' & _ & Hw1)].
  rewrite Hk in Hk'. inversion Hk'; subst t'; clear Hk'.
  rewrite Hfn in Hw1. cbn [run_timer_fn] in Hw1.
  destruct (fields_rearm k t w) as (_ & Hnow & _ & _).
  destruct (fields_cleanup (rearm k t w)) as (_ & Hnow' & _ & _).
  assert (Hn1 : now w1 = now w) by (subst w1; congruence).
  assert (Hin : exists i, In (hard_exit_timer i (now w + 10000)) (timers w1)).
  { exists (nextTimer (rearm k t w)). subst w1. rewrite timers_cleanup, Hnow.
    apply in_app_iff. right. now left. }
  split; [exact Hn1|]. split; [exact Hin|].
  assert (Hc : within_ceiling (now w + 10000) w2).
  { apply (run_invariant (within_ceiling (now w + 10000))
             (within_ceiling_step (now w + 10000)) es w1 w2); [|exact Hrun].
    split.
    - eapply probe_handle_ok_step; [|exact He].
      now apply reachable_probe_handle_ok.
    - right. split; [lia | exact Hin]. }
  destruct (exited w2) eqn:Hx; [exact I|].
  destruct Hc as [_ [Hc|[Hle (i & Hi)]]]; [congruence|].
  split; [exact Hle|].
  destruct (In_nth_error _ _ Hi) as (j & Hj).
  exists j, i. split; [exact Hj|].
  destruct (Z.eq_dec (now w2) (now w + 10000)) as [Heq|Hne]; [right | left; lia].
  apply (fire_hard_exit w2 j i (now w + 10000)); [exact Hx | exact Hj | lia].
Qed.

Lemma hard_ceiling_bounds_cleanup_witness :
  exists i,
    In (hard_exit_timer i 15000)
       (timers (world_after EnvOther false [Signal; Elapse 5000; TimerFires 1])).
Proof.
  pose proof (hard_ceiling_bounds_cleanup
                (world_after EnvOther false [Signal; Elapse 5000])
                1 (mkTimer 1 5000 FnCleanup None)
                (world_after EnvOther false [Signal; Elapse 5000; TimerFires 1])
                [CloseCompletes 0; Elapse 10000]
                (world_after EnvOther false
                   [Signal; Elapse 5000; TimerFires 1; CloseCompletes 0;
                    Elapse 10000])) as H.
  assert (Hr : Reachable (world_after EnvOther false [Signal; Elapse 5000])).
  { exists EnvOther, false, [Signal; Elapse 5000]. vm_compute; reflexivity. }
  specialize (H Hr).
  assert (H1 : nth_error
                 (timers (world_after EnvOther false [Signal; Elapse 5000])) 1
               = Some (mkTimer 1 5000 FnCleanup None))
    by (vm_compute; reflexivity).
  assert (H2 : step (world_after EnvOther false [Signal; Elapse 5000])
                 (TimerFires 1)
               = Some (world_after EnvOther false
                         [Signal; Elapse 5000; TimerFires 1]))
    by (vm_compute; reflexivity).
  assert (H3 : run (world_after EnvOther false
                      [Signal; Elapse 5000; TimerFires 1])
                 [CloseCompletes 0; Elapse 10000]
               = Some (world_after EnvOther false
                         [Signal; Elapse 5000; TimerFires 1; CloseCompletes 0;
                          Elapse 10000]))
    by (vm_compute; reflexivity).
  destruct (H H1 eq_refl H2 H3) as (_ & Hin & _).
  exact Hin.
Defined.

(** ** Further properties of the lifecycle *)

(** *** Signals and batches are soft steps *)

Lemma length_remove_at {A : Type} (k : nat) (l : list A) :
  (List.length (remove_at k l) <= List.length l)%nat.
Proof.
  revert l; induction k as [|k IH]; intros [|x l];
    try (unfold remove_at; simpl; lia).
  change (remove_at (S k) (x :: l)) with (x :: remove_at k l).
  simpl. specialize (IH l). lia.
Qed.

Lemma soft_step_shutdown (w : World) : soft_step w (shutdown w).
Proof.
  destruct w as [e [c m r sd] pid ec ex t tm nt su fl cl tr].
  unfold soft_step, shutdown, cleanup_timer; destruct sd; simpl;
    repeat split; auto.
Qed.

Lemma soft_step_settle_startup (r : option (bool * bool * option bool)) (w : World) :
  soft_step w (settle_startup r w).
Proof.
  destruct w as [e [c m rd sd] pid ec ex t tm nt su fl cl tr].
  unfold soft_step; destruct r as [[[r0 r1] [em|]]|]; simpl;
    repeat split; auto.
Qed.

Lemma soft_step_checkConnections_then
    (wm : bool) (r : bool * bool) (l : list bool) (w : World) :
  (List.length l <= List.length (inflight w))%nat ->
  soft_step w (checkConnections_then wm r (with_inflight l w)).
Proof.
  intros Hl. destruct r as [r0 r1].
  destruct w as [e [[d em q] m rd sd] pid ec ex t tm nt su fl cl tr].
  unfold soft_step, checkConnections_then, shutdown, cleanup_timer.
  destruct r0, r1, em, wm, sd; simpl in *; repeat split; auto.
Qed.

Lemma step_soft (w : World) (e : Event) (w' : World) :
  step w e = Some w' ->
  match e with
  | Signal | StartupSettles _ | ProbeSettles _ _ => soft_step w w'
  | _ => True
  end.
Proof.
  intros He. destruct (step_cases _ _ _ He) as [_ Hcase].
  destruct e as [|d|k|r|k r|k]; trivial.
  - subst w'. apply soft_step_shutdown.
  - subst w'. apply soft_step_settle_startup.
  - destruct Hcase as (wm & _ & ->). destruct r as [r|].
    + apply soft_step_checkConnections_then. apply length_remove_at.
    + pose proof (length_remove_at k (inflight w)).
      unfold soft_step; simpl; repeat split; auto.
Qed.

Lemma step_startup_inv (w : World) (r : option (bool * bool * option bool))
    (w' : World) :
  step w (StartupSettles r) = Some w' ->
  startup w = true /\ results_fit (env w) r = true /\ w' = settle_startup r w.
Proof.
  unfold step. destruct (exited w); [discriminate|].
  destruct (startup w); [|discriminate].
  destruct (results_fit (env w) r); [|discriminate].
  intros H; inversion H; auto.
Qed.

(** *** Fields that the timer callbacks leave alone *)

Lemma more_fields_rearm (k : nat) (t : Timer) (w : World) :
  env (rearm k t w) = env w /\ state (rearm k t w) = state w
  /\ exitCode (rearm k t w) = exitCode w /\ inflight (rearm k t w) = inflight w
  /\ startup (rearm k t w) = startup w.
Proof. unfold rearm; destruct (period t); repeat split; reflexivity. Qed.

Lemma more_fields_cleanup (w : World) :
  env (cleanup w) = env w /\ exitCode (cleanup w) = exitCode w
  /\ inflight (cleanup w) = inflight w /\ startup (cleanup w) = startup w.
Proof.
  destruct w as [e s [i|] ec ex t tm nt su fl cl tr];
    repeat split; reflexivity.
Qed.

Lemma fields_checkConnections (w : World) :
  env (checkConnections w) = env w /\ exitCode (checkConnections w) = exitCode w
  /\ exited (checkConnections w) = exited w
  /\ timers (checkConnections w) = timers w
  /\ now (checkConnections w) = now w
  /\ probeId (checkConnections w) = probeId w
  /\ startup (checkConnections w) = startup w.
Proof.
  unfold checkConnections. destruct (negb (St.shutdown (state w)));
    repeat split; reflexivity.
Qed.

Lemma inflight_checkConnections (w : World) :
  inflight (checkConnections w) =
  if St.shutdown (state w) then inflight w
  else inflight w ++ [St.mounted (state w)].
Proof. unfold checkConnections. now destruct (St.shutdown (state w)). Qed.

Lemma forallb_timers_rearm (p : Timer -> bool) (k : nat) (t : Timer) (w : World) :
  (forall a b, p (mkTimer (tid t) a (fn t) b) = p t) ->
  nth_error (timers w) k = Some t ->
  forallb p (timers w) = true ->
  forallb p (timers (rearm k t w)) = true.
Proof.
  intros Hp Hk Hall. pose proof (forallb_remove_at p k _ Hall) as Hrest.
  unfold rearm. destruct (period t); simpl; [|exact Hrest].
  rewrite forallb_app, Hrest. simpl. rewrite Hp.
  now rewrite (forallb_nth_error _ _ _ _ Hall Hk).
Qed.

(** *** The process exits only from the callbacks of cleanup *)

Lemma exit_discipline_boot (e : NodeEnv) (throws : bool) :
  exit_discipline (boot e throws).
Proof.
  destruct e, throws; unfold exit_discipline; cbn;
    repeat split; auto; discriminate.
Qed.

Lemma exit_discipline_step (w : World) (e : Event) (w' : World) :
  exit_discipline w -> step w e = Some w' -> exit_discipline w'.
Proof.
  intros (Hcode & Hst & Hpre) He.
  pose proof (step_soft _ _ _ He) as Hsoft.
  destruct (step_cases _ _ _ He) as [Halive Hcase].
  assert (Hsoft_case : soft_step w w' -> exit_discipline w').
  { intros (_ & _ & _ & Hex & Hcl & Hsd & _ & Hec & Htm).
    unfold exit_discipline. rewrite Hex, Hcl, Hsd, Halive.
    split; [destruct Hec as [->| ->]; auto|].
    split; [discriminate|].
    intros Hf. destruct (Hpre Hf) as (_ & Hc & Hall).
    repeat split; auto.
    destruct Htm as [->|[_ ->]]; [exact Hall|].
    rewrite forallb_app, Hall. reflexivity. }
  destruct e as [|d|k|r|k r|k]; auto.
  - destruct Hcase as (_ & _ & ->). exact (conj Hcode (conj Hst Hpre)).
  - destruct Hcase as (t & Hk & _ & ->).
    destruct (more_fields_rearm k t w) as (_ & Hs & Hec & _).
    destruct (fields_rearm k t w) as (_ & _ & _ & Hex).
    destruct (fn t) eqn:Hfn; cbn [run_timer_fn]; unfold exit_discipline.
    + destruct (more_fields_cleanup (rearm k t w)) as (_ & Hec' & _).
      destruct (fields_cleanup (rearm k t w)) as (_ & _ & _ & Hex').
      unfold exit_status. rewrite Hec', Hec, Hex', Hex, Halive, state_cleanup.
      split; [exact Hcode|]. split; [discriminate|]. discriminate.
    + destruct (fields_checkConnections (rearm k t w))
        as (_ & Hec' & Hex' & Htm' & _).
      unfold exit_status.
      rewrite Hec', Hec, Hex', Hex, Halive, Htm', state_checkConnections, Hs,
        closing_checkConnections, closing_rearm.
      split; [exact Hcode|]. split; [discriminate|].
      intros Hf. destruct (Hpre Hf) as (_ & Hc & Hall).
      repeat split; auto.
      apply forallb_timers_rearm; auto.
    + unfold process_exit, exit_status.
      cbn [exitCode exited state with_exited emit]. rewrite Hec, Hs.
      split; [exact Hcode|]. split; [intros c Hc; now inversion Hc|].
      intros Hf. destruct (Hpre Hf) as (_ & _ & Hall).
      pose proof (forallb_nth_error _ _ _ _ Hall Hk) as Hn.
      unfold is_hard_exit_timer in Hn. rewrite Hfn in Hn. discriminate.
  - destruct Hcase as (d & cb & Hk & ->).
    assert (Hsd : St.shutdown (state w) = true).
    { destruct (St.shutdown (state w)) eqn:Hf; [reflexivity|].
      destruct (Hpre eq_refl) as (_ & Hc & _). rewrite Hc in Hk.
      destruct k; discriminate. }
    unfold exit_discipline, exit_status.
    destruct cb; cbn; rewrite Hsd;
      (split; [exact Hcode|]); (split; [|discriminate]).
    + rewrite Halive. discriminate.
    + rewrite Halive. discriminate.
    + intros c Hc. now inversion Hc.
Qed.

Lemma reachable_exit_discipline (w : World) :
  Reachable w -> exit_discipline w.
Proof.
  apply (reachable_invariant exit_discipline).
  - apply exit_discipline_boot.
  - apply exit_discipline_step.
Qed.

(** X1: whenever the gate lets a request through, cleanup has not begun,
    the queue answered the last periodic check and all three connection
    flags are true. *)
Theorem gate_admits_only_when_healthy :
  forall (Req : Type) (w : World) (req : Req),
    Reachable w ->
    gate (state w) req = Next req ->
    St.shutdown (state w) = false
    /\ St.mounted (state w) = true
    /\ St.data (St.connections (state w)) = true
    /\ St.email (St.connections (state w)) = true
    /\ St.queue (St.connections (state w)) = true.
Proof.
  intros Req w req Hr Hg.
  assert (Hready : ready_recomputed (state w)).
  { apply (reachable_invariant (fun w => ready_recomputed (state w))); trivial.
    - apply ready_recomputed_boot.
    - intros; eapply ready_recomputed_step; eauto. }
  unfold ready_recomputed in Hready. unfold gate in Hg.
  destruct (St.shutdown (state w)); [discriminate|].
  destruct (St.ready (state w)); [|discriminate].
  destruct (St.mounted (state w)); [|discriminate].
  symmetry in Hready.
  apply Bool.andb_true_iff in Hready as [Hde Hq].
  apply Bool.andb_true_iff in Hde as [Hd Hem].
  repeat split; assumption.
Qed.

Lemma gate_admits_only_when_healthy_witness :
  St.queue
    (St.connections
       (state (world_after EnvOther false
                 [StartupSettles (Some (true, true, None));
                  Elapse 10000; TimerFires 0;
                  ProbeSettles 0 (Some (true, true))]))) = true.
Proof.
  apply (gate_admits_only_when_healthy unit
           (world_after EnvOther false
              [StartupSettles (Some (true, true, None));
               Elapse 10000; TimerFires 0;
               ProbeSettles 0 (Some (true, true))])
           tt).
  - exists EnvOther, false,
      [StartupSettles (Some (true, true, None));
       Elapse 10000; TimerFires 0; ProbeSettles 0 (Some (true, true))].
    vm_compute; reflexivity.
  - vm_compute; reflexivity.
Defined.

(** X2: the process exits only after [cleanup] has set the shutdown flag,
    and its status is [process.exitCode] as it stands at that moment: 1
    when a failure was recorded, 0 otherwise. *)
Theorem exit_only_after_cleanup :
  forall (w : World) (c : Z),
    Reachable w ->
    exited w = Some c ->
    St.shutdown (state w) = true
    /\ c = exit_status w
    /\ (c = 0 \/ c = 1).
Proof.
  intros w c Hr Hx.
  destruct (reachable_exit_discipline w Hr) as (Hcode & Hst & Hpre).
  split.
  - destruct (St.shutdown (state w)); [reflexivity|].
    destruct (Hpre eq_refl) as (Hn & _). congruence.
  - pose proof (Hst c Hx) as Hc. split; [exact Hc|].
    unfold exit_status in Hc. destruct Hcode as [Hn|Hn]; rewrite Hn in Hc; auto.
Qed.

Lemma exit_only_after_cleanup_witness :
  St.shutdown
    (state (world_after EnvOther false
              [Signal; Elapse 5000; TimerFires 1; Elapse 10000;
               TimerFires 0])) = true.
Proof.
  apply (exit_only_after_cleanup
           (world_after EnvOther false
              [Signal; Elapse 5000; TimerFires 1; Elapse 10000; TimerFires 0])
           0).
  - exists EnvOther, false,
      [Signal; Elapse 5000; TimerFires 1; Elapse 10000; TimerFires 0].
    vm_compute; reflexivity.
  - vm_compute; reflexivity.
Defined.

Lemma exitCode_sticky_step (w : World) (e : Event) (w' : World) :
  exitCode w = Some 1 -> step w e = Some w' -> exitCode w' = Some 1.
Proof.
  intros Hc He. pose proof (step_soft _ _ _ He) as Hsoft.
  destruct (step_cases _ _ _ He) as [_ Hcase].
  assert (Hs : soft_step w w' -> exitCode w' = Some 1).
  { intros (_ & _ & _ & _ & _ & _ & _ & [->| ->] & _); auto. }
  destruct e as [|d|k|r|k r|k]; auto.
  - destruct Hcase as (_ & _ & ->). exact Hc.
  - destruct Hcase as (t & _ & _ & ->).
    destruct (more_fields_rearm k t w) as (_ & _ & Hec & _).
    destruct (fn t); cbn [run_timer_fn].
    + destruct (more_fields_cleanup (rearm k t w)) as (_ & -> & _). congruence.
    + destruct (fields_checkConnections (rearm k t w)) as (_ & -> & _).
      congruence.
    + unfold process_exit; simpl. congruence.
  - destruct Hcase as (d & cb & _ & ->). destruct cb; exact Hc.
Qed.

(** X3: a recorded failure sticks.  Once [process.exitCode] is 1 nothing
    sets it back, so however the shutdown then proceeds (signals, close
    callbacks, the forced exit) the process can only exit with status
    1. *)
Theorem failure_status_sticks :
  forall (w : World) (es : list Event) (w' : World),
    Reachable w ->
    exitCode w = Some 1 ->
    run w es = Some w' ->
    exitCode w' = Some 1
    /\ (exited w' = None \/ exited w' = Some 1).
Proof.
  intros w es w' Hr Hc Hrun.
  assert (Hc' : exitCode w' = Some 1).
  { apply (run_invariant (fun w => exitCode w = Some 1)
             exitCode_sticky_step es w w' Hc Hrun). }
  split; [exact Hc'|].
  destruct (exited w') as [c|] eqn:Hx; [right | now left].
  assert (Hr' : Reachable w').
  { destruct Hr as (e0 & th & es0 & Hrun0). exists e0, th, (es0 ++ es).
    now rewrite run_app, Hrun0. }
  destruct (reachable_exit_discipline w' Hr') as (_ & Hst & _).
  rewrite (Hst c Hx). unfold exit_status. now rewrite Hc'.
Qed.

Lemma failure_status_sticks_witness :
  exited
    (world_after EnvOther false
       [Elapse 10000; TimerFires 0; ProbeSettles 0 (Some (false, true));
        Signal; Elapse 5000; TimerFires 1; CloseCompletes 0;
        CloseCompletes 0; CloseCompletes 0]) = Some 1.
Proof.
  pose proof (failure_status_sticks
                (world_after EnvOther false
                   [Elapse 10000; TimerFires 0;
                    ProbeSettles 0 (Some (false, true))])
                [Signal; Elapse 5000; TimerFires 1; CloseCompletes 0;
                 CloseCompletes 0; CloseCompletes 0]
                (world_after EnvOther false
                   [Elapse 10000; TimerFires 0;
                    ProbeSettles 0 (Some (false, true));
                    Signal; Elapse 5000; TimerFires 1; CloseCompletes 0;
                    CloseCompletes 0; CloseCompletes 0])) as H.
  assert (Hr : Reachable
                 (world_after EnvOther false
                    [Elapse 10000; TimerFires 0;
                     ProbeSettles 0 (Some (false, true))])).
  { exists EnvOther, false,
      [Elapse 10000; TimerFires 0; ProbeSettles 0 (Some (false, true))].
    vm_compute; reflexivity. }
  assert (H1 : exitCode
                 (world_after EnvOther false
                    [Elapse 10000; TimerFires 0;
                     ProbeSettles 0 (Some (false, true))]) = Some 1)
    by (vm_compute; reflexivity).
  assert (H2 : run (world_after EnvOther false
                      [Elapse 10000; TimerFires 0;
                       ProbeSettles 0 (Some (false, true))])
                 [Signal; Elapse 5000; TimerFires 1; CloseCompletes 0;
                  CloseCompletes 0; CloseCompletes 0]
               = Some (world_after EnvOther false
                         [Elapse 10000; TimerFires 0;
                          ProbeSettles 0 (Some (false, true));
                          Signal; Elapse 5000; TimerFires 1; CloseCompletes 0;
                          CloseCompletes 0; CloseCompletes 0]))
    by (vm_compute; reflexivity).
  destruct (H Hr H1 H2) as [_ [Hx|Hx]]; [|exact Hx].
  vm_compute in Hx. discriminate Hx.
Defined.

(** *** The probe interval *)

Lemma Timer_eq_dec (a b : Timer) : {a = b} + {a <> b}.
Proof.
  decide equality; try apply Z.eq_dec; try apply Nat.eq_dec;
    decide equality; apply Z.eq_dec.
Qed.

Lemma probe_loop_boot (e : NodeEnv) (throws : bool) : probe_loop (boot e throws).
Proof.
  destruct e, throws; unfold probe_loop; cbn; (split; [|split]).
  all: try (intros t Hin Hck; repeat destruct Hin as [<-|Hin];
            try contradiction; cbn in *; try discriminate; now split).
  all: try (intros Hsd; discriminate Hsd).
  all: try (intros _ Hte; discriminate Hte).
  all: try reflexivity.
  all: intros _ _;
    first [ eexists; split;
            [left; reflexivity | split; [reflexivity | cbn; lia]]
          | eexists; split;
            [right; left; reflexivity | split; [reflexivity | cbn; lia]] ].
Qed.

(** Adding timers that are not the interval, and nothing else that the
    probe loop reads, keeps the loop as it is. *)
Lemma probe_loop_frame (w w' : World) (extra : list Timer) :
  env w' = env w -> probeId w' = probeId w -> now w' = now w ->
  St.shutdown (state w') = St.shutdown (state w) ->
  timers w' = timers w ++ extra ->
  forallb (fun t => negb (is_check_timer t)) extra = true ->
  probe_loop w -> probe_loop w'.
Proof.
  intros He Hp Hn Hs Ht Hex (Ha & Hb & Hc). unfold probe_loop.
  rewrite He, Hp, Hn, Hs, Ht. repeat split.
  - apply in_app_iff in H as [H|H]; [now apply Ha|].
    rewrite forallb_forall in Hex. specialize (Hex _ H).
    rewrite H0 in Hex. discriminate.
  - apply in_app_iff in H as [H|H]; [now apply Ha|].
    rewrite forallb_forall in Hex. specialize (Hex _ H).
    rewrite H0 in Hex. discriminate.
  - intros Hsd. rewrite forallb_app, (Hb Hsd), Hex. reflexivity.
  - intros Hsd Hte. destruct (Hc Hsd Hte) as (t & Hin & Hck & Hdue).
    exists t. repeat split; auto. apply in_app_iff. now left.
Qed.

Lemma probe_loop_same (w w' : World) :
  env w' = env w -> probeId w' = probeId w -> now w' = now w ->
  St.shutdown (state w') = St.shutdown (state w) ->
  timers w' = timers w ->
  probe_loop w -> probe_loop w'.
Proof.
  intros He Hp Hn Hs Ht. apply (probe_loop_frame w w' []); auto.
  now rewrite app_nil_r.
Qed.

Lemma probe_loop_soft (w w' : World) :
  soft_step w w' -> probe_loop w -> probe_loop w'.
Proof.
  intros (He & Hp & Hn & _ & _ & Hs & _ & _ & [Ht|[_ Ht]]).
  - now apply probe_loop_same.
  - now apply (probe_loop_frame w w' [cleanup_timer (nextTimer w) (now w + 5000)]).
Qed.

Lemma probe_loop_rearm (k : nat) (t : Timer) (w : World) :
  nth_error (timers w) k = Some t ->
  probe_loop w -> probe_loop (rearm k t w).
Proof.
  intros Hk (Ha & Hb & Hc). unfold probe_loop.
  destruct (more_fields_rearm k t w) as (-> & -> & _).
  destruct (fields_rearm k t w) as (-> & -> & _).
  pose proof (nth_error_In _ _ Hk) as Hin.
  repeat split.
  - unfold rearm in H. destruct (period t) as [p|] eqn:Hp; simpl in H.
    + apply in_app_iff in H as [H|[<-|[]]].
      * apply Ha; [eapply in_remove_at; eauto | exact H0].
      * simpl. apply (Ha t Hin). exact H0.
    + apply Ha; [eapply in_remove_at; eauto | exact H0].
  - unfold rearm in H. destruct (period t) as [p|] eqn:Hp; simpl in H.
    + apply in_app_iff in H as [H|[<-|[]]].
      * apply Ha; [eapply in_remove_at; eauto | exact H0].
      * simpl. destruct (Ha t Hin H0) as [_ Hper]. congruence.
    + apply Ha; [eapply in_remove_at; eauto | exact H0].
  - intros Hsd. apply forallb_timers_rearm; auto.
  - intros Hsd Hte. destruct (Hc Hsd Hte) as (x & Hx & Hck & Hdue).
    destruct (Ha x Hx Hck) as [_ Hper].
    unfold rearm. destruct (period t) as [p|] eqn:Hp; simpl.
    + destruct (Timer_eq_dec x t) as [Heq|Hne].
      * subst x. rewrite Hp in Hper. inversion Hper; subst p.
        exists (mkTimer (tid t) (now w + 10000) (fn t) (Some 10000)).
        repeat split; [apply in_app_iff; right; now left | exact Hck | simpl; lia].
      * exists x. repeat split; auto. apply in_app_iff. left.
        eapply in_remove_at_other; eauto.
    + exists x. repeat split; auto.
      eapply in_remove_at_other; eauto.
      intros ->. rewrite Hp in Hper. discriminate.
Qed.

Lemma probe_loop_cleanup (w : World) : probe_loop w -> probe_loop (cleanup w).
Proof.
  intros (Ha & Hb & Hc). unfold probe_loop.
  destruct (fields_cleanup w) as (Hp & _ & _ & _).
  rewrite Hp, state_cleanup, timers_cleanup.
  assert (Hin : forall t,
             In t (match probeId w with
                   | Some i => filter (fun t => negb (Nat.eqb (tid t) i)) (timers w)
                   | None => timers w
                   end) ->
             In t (timers w) /\ probeId w <> Some (tid t)).
  { intros t Ht. destruct (probeId w) as [i|].
    - apply filter_In in Ht as [Ht Hne]. split; [exact Ht|].
      apply Bool.negb_true_iff, Nat.eqb_neq in Hne. congruence.
    - split; [exact Ht | discriminate]. }
  split; [|split].
  - intros t Ht Hck. apply in_app_iff in Ht as [Ht|[<-|[]]]; [|discriminate Hck].
    apply Ha; [apply (Hin t Ht) | exact Hck].
  - intros _. rewrite forallb_app. apply Bool.andb_true_iff. split; [|reflexivity].
    apply forallb_forall. intros t Ht. destruct (Hin t Ht) as [Ht' Hne].
    destruct (is_check_timer t) eqn:Hck; [|reflexivity].
    destruct (Ha t Ht' Hck) as [Hp' _]. contradiction.
  - simpl. discriminate.
Qed.

Lemma probe_loop_step (w : World) (e : Event) (w' : World) :
  probe_loop w -> step w e = Some w' -> probe_loop w'.
Proof.
  intros Hl He. pose proof (step_soft _ _ _ He) as Hsoft.
  destruct (step_cases _ _ _ He) as [_ Hcase].
  destruct e as [|d|k|r|k r|k]; try (eapply probe_loop_soft; eassumption).
  - destruct Hcase as (Hd & _ & ->). destruct Hl as (Ha & Hb & Hc).
    unfold probe_loop; simpl. repeat split; try (now apply Ha); auto.
    intros Hsd Hte. destruct (Hc Hsd Hte) as (t & Hin & Hck & Hdue).
    exists t. repeat split; auto. lia.
  - destruct Hcase as (t & Hk & _ & ->).
    pose proof (probe_loop_rearm _ _ _ Hk Hl) as Hl'.
    destruct (fn t); cbn [run_timer_fn].
    + now apply probe_loop_cleanup.
    + destruct (fields_checkConnections (rearm k t w))
        as (H1 & _ & _ & H2 & H3 & H4 & _).
      apply (probe_loop_same (rearm k t w)); auto.
      now rewrite state_checkConnections.
    + now apply (probe_loop_same (rearm k t w)).
  - destruct Hcase as (d & cb & _ & ->).
    apply (probe_loop_same w); auto; destruct cb; reflexivity.
Qed.

Lemma reachable_probe_loop (w : World) : Reachable w -> probe_loop w.
Proof.
  apply (reachable_invariant probe_loop).
  - apply probe_loop_boot.
  - apply probe_loop_step.
Qed.

Lemma env_step (w : World) (e : Event) (w' : World) :
  step w e = Some w' -> env w' = env w.
Proof.
  intros He. pose proof (step_soft _ _ _ He) as Hsoft.
  destruct (step_cases _ _ _ He) as [_ Hcase].
  destruct e as [|d|k|r|k r|k]; try (now destruct Hsoft).
  - now destruct Hcase as (_ & _ & ->).
  - destruct Hcase as (t & _ & _ & ->).
    destruct (more_fields_rearm k t w) as (Hen & _).
    destruct (fn t); cbn [run_timer_fn].
    + destruct (more_fields_cleanup (rearm k t w)) as (-> & _). exact Hen.
    + destruct (fields_checkConnections (rearm k t w)) as (-> & _). exact Hen.
    + exact Hen.
  - destruct Hcase as (d & cb & _ & ->). now destruct cb.
Qed.

(** X4: as long as [cleanup] has not run, the periodic check stays
    scheduled (outside the test environment): the interval that [probeId]
    names is pending, repeats every 10000 ms and is due within the next
    10000 ms. *)
Theorem probe_loop_stays_armed :
  forall w : World,
    Reachable w ->
    is_test (env w) = false ->
    St.shutdown (state w) = false ->
    exists t,
      In t (timers w)
      /\ fn t = FnCheckConnections
      /\ period t = Some 10000
      /\ probeId w = Some (tid t)
      /\ due t <= now w + 10000.
Proof.
  intros w Hr Hte Hsd.
  destruct (reachable_probe_loop w Hr) as (Ha & _ & Hc).
  destruct (Hc Hsd Hte) as (t & Hin & Hck & Hdue).
  destruct (Ha t Hin Hck) as [Hp Hper].
  exists t. repeat split; auto.
  unfold is_check_timer in Hck. destruct (fn t); auto; discriminate.
Qed.

Lemma probe_loop_stays_armed_witness :
  exists t,
    In t (timers (world_after EnvOther false
                    [StartupSettles (Some (true, true, None));
                     Elapse 10000; TimerFires 0; Signal]))
    /\ fn t = FnCheckConnections
    /\ period t = Some 10000
    /\ probeId (world_after EnvOther false
                  [StartupSettles (Some (true, true, None));
                   Elapse 10000; TimerFires 0; Signal]) = Some (tid t)
    /\ due t <= now (world_after EnvOther false
                       [StartupSettles (Some (true, true, None));
                        Elapse 10000; TimerFires 0; Signal]) + 10000.
Proof.
  apply (probe_loop_stays_armed
           (world_after EnvOther false
              [StartupSettles (Some (true, true, None));
               Elapse 10000; TimerFires 0; Signal])).
  - exists EnvOther, false,
      [StartupSettles (Some (true, true, None));
       Elapse 10000; TimerFires 0; Signal].
    vm_compute; reflexivity.
  - vm_compute; reflexivity.
  - vm_compute; reflexivity.
Defined.

Lemma quiet_after_cleanup_step (n : nat) (w : World) (e : Event) (w' : World) :
  probe_loop w /\ St.shutdown (state w) = true
  /\ (List.length (inflight w) <= n)%nat ->
  step w e = Some w' ->
  probe_loop w' /\ St.shutdown (state w') = true
  /\ (List.length (inflight w') <= n)%nat.
Proof.
  intros (Hl & Hsd & Hn) He.
  split; [eapply probe_loop_step; eauto|].
  split; [eapply shutdown_flag_step; eauto|].
  pose proof (step_soft _ _ _ He) as Hsoft.
  destruct (step_cases _ _ _ He) as [_ Hcase].
  assert (Hs : soft_step w w' -> (List.length (inflight w') <= n)%nat).
  { intros (_ & _ & _ & _ & _ & _ & Hlen & _). lia. }
  destruct e as [|d|k|r|k r|k]; auto.
  - now destruct Hcase as (_ & _ & ->).
  - destruct Hcase as (t & Hk & _ & ->).
    destruct (more_fields_rearm k t w) as (_ & Hst & _ & Hfl & _).
    destruct (fn t); cbn [run_timer_fn].
    + destruct (more_fields_cleanup (rearm k t w)) as (_ & _ & -> & _).
      now rewrite Hfl.
    + rewrite inflight_checkConnections, Hst, Hsd, Hfl. exact Hn.
    + simpl. now rewrite Hfl.
  - destruct Hcase as (d & cb & _ & ->). now destruct cb.
Qed.

(** X5: cancelling the probe works.  Once [cleanup] has run, no interval
    timer is pending any more and no periodic batch is ever started again:
    the batches in flight can only get fewer. *)
Theorem no_probe_starts_after_cleanup :
  forall (w : World) (es : list Event) (w' : World),
    Reachable w ->
    St.shutdown (state w) = true ->
    run w es = Some w' ->
    forallb (fun t => negb (is_check_timer t)) (timers w') = true
    /\ (List.length (inflight w') <= List.length (inflight w))%nat.
Proof.
  intros w es w' Hr Hsd Hrun.
  assert (H : probe_loop w' /\ St.shutdown (state w') = true
              /\ (List.length (inflight w') <= List.length (inflight w))%nat).
  { apply (run_invariant
             (fun x => probe_loop x /\ St.shutdown (state x) = true
                       /\ (List.length (inflight x)
                           <= List.length (inflight w))%nat)
             (quiet_after_cleanup_step (List.length (inflight w)))
             es w w'); [|exact Hrun].
    split; [now apply reachable_probe_loop|]. split; [exact Hsd | lia]. }
  destruct H as ((_ & Hb & _) & Hsd' & Hlen).
  split; [now apply Hb | exact Hlen].
Qed.

Lemma no_probe_starts_after_cleanup_witness :
  (List.length
     (inflight (world_after EnvOther false
                  [Elapse 10000; TimerFires 0; Signal; Elapse 5000;
                   TimerFires 1; ProbeSettles 0 (Some (true, true));
                   Elapse 10000]))
   <= 1)%nat.
Proof.
  apply (no_probe_starts_after_cleanup
           (world_after EnvOther false
              [Elapse 10000; TimerFires 0; Signal; Elapse 5000; TimerFires 1])
           [ProbeSettles 0 (Some (true, true)); Elapse 10000]).
  - exists EnvOther, false,
      [Elapse 10000; TimerFires 0; Signal; Elapse 5000; TimerFires 1].
    vm_compute; reflexivity.
  - vm_compute; reflexivity.
  - vm_compute; reflexivity.
Defined.

(** *** The quiescence window *)

Lemma in_timers_rearm_cases (k : nat) (t x : Timer) (w : World) :
  In x (timers (rearm k t w)) ->
  In x (timers w)
  \/ exists p, period t = Some p
               /\ x = mkTimer (tid t) (now w + p) (fn t) (Some p).
Proof.
  unfold rearm. destruct (period t) as [p|]; simpl.
  - rewrite in_app_iff. intros [H|[<-|[]]].
    + left. eapply in_remove_at; eauto.
    + right. now exists p.
  - intros H. left. eapply in_remove_at; eauto.
Qed.

Lemma in_timers_cleanup (x : Timer) (w : World) :
  In x (timers (cleanup w)) ->
  In x (timers w) \/ x = hard_exit_timer (nextTimer w) (now w + 10000).
Proof.
  rewrite timers_cleanup, in_app_iff. intros [H|[<-|[]]]; [left | now right].
  destruct (probeId w); [|exact H]. now apply filter_In in H.
Qed.

Lemma quiescent_since_step (T0 : Z) (w : World) (e : Event) (w' : World) :
  quiescent_since T0 w -> step w e = Some w' -> quiescent_since T0 w'.
Proof.
  intros (Hn & Ht & Hs) He. pose proof (step_soft _ _ _ He) as Hsoft.
  destruct (step_cases _ _ _ He) as [_ Hcase].
  assert (Hsoft_case : soft_step w w' -> quiescent_since T0 w').
  { intros (_ & _ & Hnow & _ & _ & Hsd & _ & _ & Htm).
    unfold quiescent_since. rewrite Hnow, Hsd. repeat split; auto;
      destruct Htm as [Htm|[_ Htm]]; rewrite Htm in H;
      try (apply in_app_iff in H as [H|[<-|[]]]);
      try (now apply (Ht t H)); simpl; first [lia | reflexivity]. }
  destruct e as [|d|k|r|k r|k]; auto.
  - destruct Hcase as (Hd & _ & ->). unfold quiescent_since; simpl.
    repeat split; try (now apply Ht); try lia.
    intros Hsd. specialize (Hs Hsd). lia.
  - destruct Hcase as (t & Hk & Hdue & ->).
    pose proof (nth_error_In _ _ Hk) as Hin.
    destruct (fields_rearm k t w) as (_ & Hnow & _ & _).
    destruct (more_fields_rearm k t w) as (_ & Hst & _).
    assert (Hre : forall x, In x (timers (rearm k t w)) ->
                            is_cleanup_timer x = true ->
                            T0 + 5000 <= due x /\ period x = None).
    { intros x Hx Hc. destruct (in_timers_rearm_cases _ _ _ _ Hx)
        as [Hx'|(p & Hp & ->)]; [now apply Ht|].
      assert (Hct : is_cleanup_timer t = true) by exact Hc.
      destruct (Ht t Hin Hct) as [_ Hnone]. congruence. }
    destruct (fn t) eqn:Hfn; cbn [run_timer_fn]; unfold quiescent_since.
    + destruct (fields_cleanup (rearm k t w)) as (_ & -> & _ & _).
      rewrite Hnow, state_cleanup.
      assert (Hct : is_cleanup_timer t = true)
        by (unfold is_cleanup_timer; now rewrite Hfn).
      destruct (Ht t Hin Hct) as [Hlate _].
      repeat split; try lia;
        destruct (in_timers_cleanup _ _ H) as [Hx| ->];
        try (now apply Hre); discriminate.
    + destruct (fields_checkConnections (rearm k t w))
        as (_ & _ & _ & -> & -> & _).
      rewrite Hnow, state_checkConnections, Hst.
      repeat split; auto; now apply Hre.
    + simpl. rewrite Hnow, Hst. repeat split; auto; now apply Hre.
  - destruct Hcase as (d & cb & _ & ->).
    unfold quiescent_since. rewrite state_run_close_cb.
    destruct cb; simpl; repeat split; auto; now apply Ht.
Qed.

(** X6: [cleanup] waits at least five seconds.  From a world in which no
    cleanup is scheduled and the shutdown flag is false, the flag cannot
    be true sooner than 5000 ms later, whatever signals arrive and
    whatever the checks report meanwhile. *)
Theorem cleanup_waits_five_seconds :
  forall (w : World) (es : list Event) (w' : World),
    forallb (fun t => negb (is_cleanup_timer t)) (timers w) = true ->
    St.shutdown (state w) = false ->
    run w es = Some w' ->
    St.shutdown (state w') = true ->
    now w + 5000 <= now w'.
Proof.
  intros w es w' Hno Hsd Hrun Hsd'.
  assert (H : quiescent_since (now w) w').
  { apply (run_invariant (quiescent_since (now w))
             (quiescent_since_step (now w)) es w w'); [|exact Hrun].
    unfold quiescent_since. repeat split; try lia.
    - rewrite forallb_forall in Hno. specialize (Hno _ H).
      rewrite H0 in Hno. discriminate.
    - rewrite forallb_forall in Hno. specialize (Hno _ H).
      rewrite H0 in Hno. discriminate.
    - congruence. }
  destruct H as (_ & _ & Hs). now apply Hs.
Qed.

Lemma cleanup_waits_five_seconds_witness :
  0 + 5000
  <= now (world_after EnvOther false [Signal; Elapse 5000; TimerFires 1]).
Proof.
  apply (cleanup_waits_five_seconds
           (boot EnvOther false) [Signal; Elapse 5000; TimerFires 1]).
  - vm_compute; reflexivity.
  - vm_compute; reflexivity.
  - vm_compute; reflexivity.
  - vm_compute; reflexivity.
Defined.

(** *** The whole shutdown is bounded *)

Lemma shutting_down_by_step (T : Z) (w : World) (e : Event) (w' : World) :
  shutting_down_by T w -> step w e = Some w' -> shutting_down_by T w'.
Proof.
  intros [Hok Hdis] He. split; [eapply probe_handle_ok_step; eauto|].
  destruct Hdis as [[Hn (i & Hi)]|(D & HD & Hc)].
  2:{ right. exists D. split; [exact HD|].
      exact (proj2 (within_ceiling_step D w e w' (conj Hok Hc) He)). }
  pose proof (step_soft _ _ _ He) as Hsoft.
  destruct (step_cases _ _ _ He) as [_ Hcase].
  assert (Hs : soft_step w w' ->
               (now w' <= T /\ exists i, In (cleanup_timer i T) (timers w'))).
  { intros (_ & _ & Hnow & _ & _ & _ & _ & _ & Htm). split; [lia|].
    exists i. destruct Htm as [->|[_ ->]]; [exact Hi|].
    apply in_app_iff. now left. }
  destruct e as [|d|k|r|k r|k]; auto.
  - destruct Hcase as (_ & Hdue & ->). left. split.
    + specialize (Hdue _ Hi). simpl in *. lia.
    + now exists i.
  - destruct Hcase as (t & Hk & _ & ->).
    destruct (fields_rearm k t w) as (_ & Hnow & _ & _).
    destruct (fn t) eqn:Hfn; cbn [run_timer_fn].
    + right. exists (now w + 10000). split; [lia|]. right.
      unfold hard_exit_pending.
      destruct (fields_cleanup (rearm k t w)) as (_ & -> & _ & _).
      rewrite Hnow. split; [lia|].
      exists (nextTimer (rearm k t w)). rewrite timers_cleanup, Hnow.
      apply in_app_iff. right. now left.
    + left.
      destruct (fields_checkConnections (rearm k t w))
        as (_ & _ & _ & -> & -> & _).
      rewrite Hnow. split; [exact Hn|]. exists i.
      apply timers_rearm_keep; auto.
      intros <-. discriminate Hfn.
    + right. exists (T + 10000). split; [lia|]. left.
      unfold process_exit; simpl. discriminate.
  - destruct Hcase as (d & cb & _ & ->). left.
    destruct cb; simpl; (split; [exact Hn | now exists i]).
Qed.

(** X7: a shutdown trigger bounds the life of the process.  After
    [shutdown()] was called while the shutdown flag was false, no run
    leaves the process alive more than 15000 ms later: five seconds of
    quiescence, then at most ten for the close chain. *)
Theorem shutdown_completes_within_fifteen_seconds :
  forall (w : World) (es : list Event) (w' : World),
    Reachable w ->
    St.shutdown (state w) = false ->
    run (shutdown w) es = Some w' ->
    match exited w' with
    | Some _ => True
    | None => now w' <= now w + 15000
    end.
Proof.
  intros w es w' Hr Hsd Hrun.
  assert (H : shutting_down_by (now w + 5000) w').
  { apply (run_invariant (shutting_down_by (now w + 5000))
             (shutting_down_by_step (now w + 5000)) es (shutdown w) w');
      [|exact Hrun].
    split.
    - eapply probe_handle_ok_keeps; [|apply keeps_timers_shutdown].
      now apply reachable_probe_handle_ok.
    - left. destruct (soft_step_shutdown w) as (_ & _ & -> & _).
      split; [lia|]. exists (nextTimer w).
      rewrite timers_shutdown, Hsd. apply in_app_iff. right. now left. }
  destruct (exited w') eqn:Hx; [exact I|].
  destruct H as [_ [[Hn _]|(D & HD & [Hc|[Hn _]])]]; try lia. congruence.
Qed.

Lemma shutdown_completes_within_fifteen_seconds_witness :
  now (world_after EnvOther false
         [Signal; Elapse 5000; TimerFires 1; CloseCompletes 0; Elapse 10000])
  <= 0 + 15000.
Proof.
  pose proof (shutdown_completes_within_fifteen_seconds
                (boot EnvOther false)
                [Elapse 5000; TimerFires 1; CloseCompletes 0; Elapse 10000]
                (world_after EnvOther false
                   [Signal; Elapse 5000; TimerFires 1; CloseCompletes 0;
                    Elapse 10000])) as H.
  assert (Hr : Reachable (boot EnvOther false))
    by (exists EnvOther, false, []; reflexivity).
  assert (H1 : St.shutdown (state (boot EnvOther false)) = false)
    by (vm_compute; reflexivity).
  assert (H2 : run (shutdown (boot EnvOther false))
                 [Elapse 5000; TimerFires 1; CloseCompletes 0; Elapse 10000]
               = Some (world_after EnvOther false
                         [Signal; Elapse 5000; TimerFires 1; CloseCompletes 0;
                          Elapse 10000]))
    by (vm_compute; reflexivity).
  specialize (H Hr H1 H2). vm_compute in H. vm_compute. exact H.
Defined.

(** *** What each event adds to the trace *)

Lemma trace_checkConnections_then_plain (wm : bool) (r : bool * bool) (w : World) :
  exists pre, trace (checkConnections_then wm r w) = pre ++ trace w
              /\ forallb plain pre = true.
Proof.
  destruct r as [r0 r1]. unfold checkConnections_then.
  repeat break_match; rewrite ?trace_shutdown; simpl;
    match goal with
    | |- exists pre, ?l = _ /\ _ =>
        match l with
        | ?a :: ?b :: ?c :: ?d :: trace w => exists [a; b; c; d]
        | ?a :: ?b :: ?c :: trace w => exists [a; b; c]
        | ?a :: ?b :: trace w => exists [a; b]
        | ?a :: trace w => exists [a]
        end
    end; split; reflexivity.
Qed.

Lemma step_trace (w : World) (e : Event) (w' : World) :
  step w e = Some w' ->
  exists pre, trace w' = pre ++ trace w /\ added_by w e pre.
Proof.
  intros He. destruct (step_cases _ _ _ He) as [_ Hcase].
  destruct e as [|d|k|r|k r|k]; unfold added_by.
  - subst w'. rewrite trace_shutdown.
    exists [QueuePause; LogInfo "Received kill signal. Shutting down..."].
    split; reflexivity.
  - destruct Hcase as (_ & _ & ->). exists []. split; reflexivity.
  - destruct Hcase as (t & Hk & _ & ->).
    destruct (more_fields_rearm k t w) as (_ & _ & Hec & _).
    destruct (fn t) eqn:Hfn; cbn [run_timer_fn];
      eexists; (split; [|exists t; split; [exact Hk|rewrite Hfn; reflexivity]]).
    + now rewrite trace_cleanup, trace_rearm.
    + now rewrite trace_checkConnections, trace_rearm.
    + unfold process_exit, exit_status. cbn [trace with_exited emit].
      now rewrite trace_rearm, Hec.
  - subst w'. destruct r as [[[r0 r1] [em|]]|]; simpl;
      (eexists; split; [|eexists; split; [reflexivity|]]);
      [ instantiate (1 := [LogInfo "Connection Statuses"]) | |
        instantiate (1 := [LogInfo "Connection Statuses"]) | |
        instantiate (1 := [LogInfo "Connection Statuses";
                           LogError "initializeConnections"]) | ];
      reflexivity.
  - destruct Hcase as (wm & _ & ->). destruct r as [r|].
    + destruct (trace_checkConnections_then_plain wm r
                  (with_inflight (remove_at k (inflight w)) w))
        as (pre & Hp & Hq).
      exists pre. split; [exact Hp | exact Hq].
    + exists [LogError "unhandledRejection"]. split; reflexivity.
  - destruct Hcase as (d & cb & Hk & ->).
    eexists; split; [|exists d, cb; split; [exact Hk|reflexivity]].
    destruct cb; reflexivity.
Qed.

Lemma count_effects_added (p : Effect -> bool) (pre : list Effect) (w w' : World) :
  trace w' = pre ++ trace w ->
  count_effects p w' = (List.length (filter p pre) + count_effects p w)%nat.
Proof.
  intros Ht. unfold count_effects. rewrite Ht, filter_app. apply length_app.
Qed.

Lemma filter_plain (p : Effect -> bool) (pre : list Effect) :
  (forall x, plain x = true -> p x = false) ->
  forallb plain pre = true -> filter p pre = [].
Proof.
  intros Hp. induction pre as [|x pre IH]; simpl; [reflexivity|].
  intros H. apply Bool.andb_true_iff in H as [Hx Hpre].
  rewrite (Hp x Hx). now apply IH.
Qed.

Lemma startup_step (w : World) (e : Event) (w' : World) :
  step w e = Some w' ->
  startup w' = match e with StartupSettles _ => false | _ => startup w end.
Proof.
  intros He. destruct (step_cases _ _ _ He) as [_ Hcase].
  destruct e as [|d|k|r|k r|k].
  - subst w'. unfold shutdown; simpl. now destruct (St.shutdown (state w)).
  - now destruct Hcase as (_ & _ & ->).
  - destruct Hcase as (t & _ & _ & ->).
    destruct (more_fields_rearm k t w) as (_ & _ & _ & _ & Hsu).
    destruct (fn t); cbn [run_timer_fn].
    + destruct (more_fields_cleanup (rearm k t w)) as (_ & _ & _ & ->). exact Hsu.
    + destruct (fields_checkConnections (rearm k t w))
        as (_ & _ & _ & _ & _ & _ & ->). exact Hsu.
    + exact Hsu.
  - subst w'. destruct r as [[[r0 r1] [em|]]|]; reflexivity.
  - destruct Hcase as (wm & _ & ->). destruct r as [[r0 r1]|]; [|reflexivity].
    unfold checkConnections_then. repeat break_match;
      unfold shutdown; simpl; repeat break_match; reflexivity.
  - destruct Hcase as (d & cb & _ & ->). now destruct cb.
Qed.

(** *** Attaching the queue listeners *)

Lemma mounted_count_step (w : World) (e : Event) (w' : World) :
  step w e = Some w' ->
  count_effects is_mounted w' =
  (count_effects is_mounted w
   + match e with StartupSettles _ => 1 | _ => 0 end)%nat.
Proof.
  intros He. destruct (step_trace _ _ _ He) as (pre & Ht & Hadd).
  rewrite (count_effects_added _ _ _ _ Ht).
  assert (Hplain : forall x, plain x = true -> is_mounted x = false)
    by (intros []; simpl; congruence).
  destruct e as [|d|k|r|k r|k]; unfold added_by in Hadd.
  - rewrite (filter_plain _ _ Hplain Hadd). simpl. lia.
  - subst pre. simpl. lia.
  - destruct Hadd as (t & _ & ->). destruct (fn t); simpl; lia.
  - destruct Hadd as (logs & -> & Hl). simpl.
    rewrite (filter_plain _ _ Hplain Hl). simpl. lia.
  - rewrite (filter_plain _ _ Hplain Hadd). simpl. lia.
  - destruct Hadd as (d & cb & _ & ->). destruct cb; simpl; lia.
Qed.

Lemma mounted_once_boot (e : NodeEnv) (throws : bool) :
  mounted_once (boot e throws).
Proof.
  destruct e, throws; unfold mounted_once; cbn; auto.
Qed.

Lemma mounted_once_step (w : World) (e : Event) (w' : World) :
  mounted_once w -> step w e = Some w' -> mounted_once w'.
Proof.
  intros Hm He. unfold mounted_once in *.
  rewrite (startup_step _ _ _ He), (mounted_count_step _ _ _ He).
  destruct e as [|d|k|r|k r|k];
    try (rewrite Nat.add_0_r; exact Hm).
  destruct (step_startup_inv _ _ _ He) as (Hsu & _).
  destruct Hm as [[_ Hc]|[Hf _]]; [|congruence].
  right. split; [reflexivity | lia].
Qed.

Lemma mounted_settled_step (w : World) (e : Event) (w' : World) :
  startup w = false /\ count_effects is_mounted w = 1%nat ->
  step w e = Some w' ->
  startup w' = false /\ count_effects is_mounted w' = 1%nat.
Proof.
  intros [Hsu Hc] He.
  rewrite (startup_step _ _ _ He), (mounted_count_step _ _ _ He).
  destruct e as [|d|k|r|k r|k]; try (split; [exact Hsu | lia]).
  destruct (step_startup_inv _ _ _ He) as (Hsu' & _). congruence.
Qed.

(** X8: [mountServices] runs exactly once in the life of the process,
    when the startup batch settles, whatever the outcome of the checks:
    the listeners were not attached before, and they are never attached
    again.  That callback itself does not pause the queue, set the exit
    code or schedule [cleanup], even when a check failed. *)
Theorem listeners_attached_exactly_once :
  forall (w : World) (r : option (bool * bool * option bool)) (w' : World)
         (es : list Event) (w'' : World),
    Reachable w ->
    step w (StartupSettles r) = Some w' ->
    run w' es = Some w'' ->
    count_effects is_mounted w = 0%nat
    /\ count_effects is_mounted w'' = 1%nat
    /\ timers w' = timers w
    /\ exitCode w' = exitCode w
    /\ count_effects is_pause w' = count_effects is_pause w.
Proof.
  intros w r w' es w'' Hr He Hrun.
  destruct (step_startup_inv _ _ _ He) as (Hsu & _ & Hw').
  assert (Hm : mounted_once w).
  { apply (reachable_invariant mounted_once); trivial.
    - apply mounted_once_boot.
    - apply mounted_once_step. }
  destruct Hm as [[_ Hc]|[Hf _]]; [|congruence].
  split; [exact Hc|]. split.
  - apply (run_invariant
             (fun x => startup x = false /\ count_effects is_mounted x = 1%nat)
             mounted_settled_step es w' w''); [|exact Hrun].
    rewrite (startup_step _ _ _ He), (mounted_count_step _ _ _ He). split; [reflexivity | lia].
  - subst w'. destruct r as [[[r0 r1] [em|]]|]; repeat split; reflexivity.
Qed.

Lemma listeners_attached_exactly_once_witness :
  count_effects is_mounted
    (world_after EnvOther false
       [StartupSettles (Some (false, true, None)); Elapse 10000; TimerFires 0;
        ProbeSettles 0 (Some (false, true))]) = 1%nat.
Proof.
  apply (listeners_attached_exactly_once
           (boot EnvOther false) (Some (false, true, None))
           (world_after EnvOther false [StartupSettles (Some (false, true, None))])
           [Elapse 10000; TimerFires 0; ProbeSettles 0 (Some (false, true))]).
  - exists EnvOther, false, []. reflexivity.
  - vm_compute; reflexivity.
  - vm_compute; reflexivity.
Defined.

(** *** Calls and completions of close *)

Lemma filter_remove_at_length {A : Type} (q : A -> bool) (k : nat)
    (l : list A) (x : A) :
  nth_error l k = Some x ->
  List.length (filter q l) =
  (List.length (filter q (remove_at k l)) + if q x then 1 else 0)%nat.
Proof.
  revert l; induction k as [|k IH]; intros [|y l] Hk; try discriminate.
  - inversion Hk; subst. unfold remove_at; simpl.
    destruct (q x); simpl; lia.
  - change (remove_at (S k) (y :: l)) with (y :: remove_at k l).
    simpl in Hk. specialize (IH l Hk). simpl.
    destruct (q y); simpl; lia.
Qed.

Lemma closing_step (w : World) (e : Event) (w' : World) :
  step w e = Some w' ->
  closing w' =
  match e with
  | TimerFires k =>
      match nth_error (timers w) k with
      | Some t =>
          match fn t with
          | FnCleanup => closing w ++ [(Queue, ThenCloseEmail)]
          | _ => closing w
          end
      | None => closing w
      end
  | CloseCompletes k =>
      match nth_error (closing w) k with
      | Some (_, cb) =>
          remove_at k (closing w)
          ++ match cb with
             | ThenCloseEmail => [(Email, ThenCloseData)]
             | ThenCloseData => [(Data, ThenExit)]
             | ThenExit => []
             end
      | None => closing w
      end
  | _ => closing w
  end.
Proof.
  intros He. pose proof (step_soft _ _ _ He) as Hsoft.
  destruct (step_cases _ _ _ He) as [_ Hcase].
  destruct e as [|d|k|r|k r|k];
    try (now destruct Hsoft as (_ & _ & _ & _ & Hcl & _)).
  - now destruct Hcase as (_ & _ & ->).
  - destruct Hcase as (t & Hk & _ & ->). rewrite Hk.
    destruct (fn t); cbn [run_timer_fn].
    + now rewrite closing_cleanup, closing_rearm.
    + now rewrite closing_checkConnections, closing_rearm.
    + unfold process_exit; simpl. apply closing_rearm.
  - destruct Hcase as (d & cb & Hk & ->). rewrite Hk.
    destruct cb; simpl; try reflexivity. now rewrite app_nil_r.
Qed.

Lemma closes_balanced_boot (e : NodeEnv) (throws : bool) :
  closes_balanced (boot e throws).
Proof.
  destruct e, throws; unfold closes_balanced; cbn;
    repeat split; intros []; reflexivity.
Qed.

Ltac open_balance Ht :=
  unfold closes_balanced, pending_on;
  split; [intros [] | split];
  repeat rewrite (count_effects_added _ _ _ _ Ht).

Lemma closes_balanced_step (w : World) (e : Event) (w' : World) :
  chain_ordered w -> closes_balanced w -> step w e = Some w' ->
  closes_balanced w'.
Proof.
  intros [Hpaired _] (Hbal & Hqe & Hed) He.
  destruct (step_trace _ _ _ He) as (pre & Ht & Hadd).
  pose proof (closing_step _ _ _ He) as Hcl.
  assert (Hplain_c : forall d x, plain x = true -> is_close_called d x = false)
    by (intros d []; simpl; congruence).
  assert (Hplain_d : forall d x, plain x = true -> is_close_done d x = false)
    by (intros d []; simpl; congruence).
  assert (Hsame : (forall d, filter (is_close_called d) pre = [])
                  -> (forall d, filter (is_close_done d) pre = [])
                  -> closing w' = closing w -> closes_balanced w').
  { intros Hc Hd Hcl'. open_balance Ht; rewrite ?Hc, ?Hd, ?Hcl'; simpl; auto;
      apply Hbal. }
  unfold added_by in Hadd.
  destruct e as [|d|k|r|k r|k].
  - apply Hsame; auto; intros; now apply filter_plain; auto.
  - subst pre. apply Hsame; auto.
  - destruct Hadd as (t & Hk & ->). rewrite Hk in Hcl.
    destruct (fn t).
    + pose proof (Hbal Queue) as HQ. pose proof (Hbal Email) as HE.
      pose proof (Hbal Data) as HD. unfold pending_on in HQ, HE, HD.
      open_balance Ht; rewrite ?Hcl, ?filter_app, ?length_app;
        simpl in HQ, HE, HD |- *; lia.
    + apply Hsame; auto.
    + apply Hsame; auto; intros []; reflexivity.
  - destruct Hadd as (logs & -> & Hl).
    apply Hsame; auto; intros d; simpl; now apply filter_plain; auto.
  - apply Hsame; auto; intros; now apply filter_plain; auto.
  - destruct Hadd as (d & cb & Hk & ->). rewrite Hk in Hcl.
    pose proof (forallb_nth_error _ _ _ _ Hpaired Hk) as Hp.
    pose proof (filter_remove_at_length
                  (fun p => eqb_dep Queue (fst p)) k _ _ Hk) as RQ.
    pose proof (filter_remove_at_length
                  (fun p => eqb_dep Email (fst p)) k _ _ Hk) as RE.
    pose proof (filter_remove_at_length
                  (fun p => eqb_dep Data (fst p)) k _ _ Hk) as RD.
    pose proof (Hbal Queue) as HQ. pose proof (Hbal Email) as HE.
    pose proof (Hbal Data) as HD. unfold pending_on in HQ, HE, HD.
    destruct d, cb; try discriminate Hp;
      open_balance Ht; rewrite ?Hcl, ?filter_app, ?length_app;
      simpl in RQ, RE, RD, HQ, HE, HD |- *; lia.
Qed.

(** X9: calls of [close] are counted by the chain.  In every reachable
    world each call on a connection has completed or is pending, the mail
    connection was closed exactly as often as a queue close completed, the
    data connection exactly as often as a mail close completed; so no
    connection is closed more often than [cleanup] ran, the data store
    never more often than mail, mail never more often than the queue. *)
Theorem closes_follow_the_chain :
  forall w : World,
    Reachable w ->
    (forall d, count_effects (is_close_called d) w
               = (count_effects (is_close_done d) w + pending_on d w)%nat)
    /\ count_effects (is_close_called Email) w
       = count_effects (is_close_done Queue) w
    /\ count_effects (is_close_called Data) w
       = count_effects (is_close_done Email) w
    /\ (count_effects (is_close_called Data) w
        <= count_effects (is_close_called Email) w)%nat
    /\ (count_effects (is_close_called Email) w <= cleanups w)%nat.
Proof.
  intros w Hr.
  assert (H : chain_ordered w /\ closes_balanced w).
  { apply (reachable_invariant (fun x => chain_ordered x /\ closes_balanced x));
      trivial.
    - intros e th. split; [apply chain_ordered_boot | apply closes_balanced_boot].
    - intros x e x' [Hc Hb] He. split.
      + eapply chain_ordered_step; eauto.
      + eapply closes_balanced_step; eauto. }
  destruct H as [_ (Hbal & Hqe & Hed)].
  repeat split; auto.
  - rewrite Hed. rewrite (Hbal Email). lia.
  - rewrite Hqe. unfold cleanups. rewrite (Hbal Queue). lia.
Qed.

Lemma closes_follow_the_chain_witness :
  (count_effects (is_close_called Email)
     (world_after EnvOther false
        [Signal; Signal; Elapse 5000; TimerFires 1; TimerFires 0;
         CloseCompletes 1; CloseCompletes 1])
   <= cleanups
        (world_after EnvOther false
           [Signal; Signal; Elapse 5000; TimerFires 1; TimerFires 0;
            CloseCompletes 1; CloseCompletes 1]))%nat.
Proof.
  apply (closes_follow_the_chain
           (world_after EnvOther false
              [Signal; Signal; Elapse 5000; TimerFires 1; TimerFires 0;
               CloseCompletes 1; CloseCompletes 1])).
  exists EnvOther, false,
    [Signal; Signal; Elapse 5000; TimerFires 1; TimerFires 0;
     CloseCompletes 1; CloseCompletes 1].
  vm_compute; reflexivity.
Defined.

(** *** The test environment *)

Lemma forallb_filter {A : Type} (p q : A -> bool) (l : list A) :
  forallb p l = true -> forallb p (filter q l) = true.
Proof.
  intros H. rewrite forallb_forall in H. apply forallb_forall.
  intros x Hx. apply filter_In in Hx as [Hx _]. now apply H.
Qed.

Lemma forallb_timers_cleanup (p : Timer -> bool) (w : World) :
  (forall i T, p (hard_exit_timer i T) = true) ->
  forallb p (timers w) = true -> forallb p (timers (cleanup w)) = true.
Proof.
  intros Hh Hall. rewrite timers_cleanup, forallb_app. simpl. rewrite Hh.
  destruct (probeId w); [rewrite forallb_filter by exact Hall | rewrite Hall];
    reflexivity.
Qed.

Lemma inert_step (w : World) (e : Event) (w' : World) :
  inert w -> step w e = Some w' -> inert w'.
Proof.
  intros (Hsu & Hfl & Htm & Hc & Hr & Hm) He.
  pose proof (startup_step _ _ _ He) as Hsu'.
  pose proof (step_state _ _ _ He) as Hst.
  pose proof (step_soft _ _ _ He) as Hsoft.
  destruct (step_cases _ _ _ He) as [_ Hcase].
  unfold inert. rewrite Hsu', Hst.
  destruct e as [|d|k|r|k r|k]; cbn [state_after].
  - destruct Hsoft as (_ & _ & _ & _ & _ & _ & Hlen & _ & Ht).
    rewrite Hfl in Hlen. simpl in Hlen.
    repeat split; auto.
    + destruct (inflight w'); [reflexivity | simpl in Hlen; lia].
    + destruct Ht as [->|[_ ->]]; [exact Htm|].
      rewrite forallb_app, Htm. reflexivity.
  - destruct Hcase as (_ & _ & ->). repeat split; auto.
  - destruct Hcase as (t & Hk & _ & ->). rewrite Hk.
    pose proof (forallb_nth_error _ _ _ _ Htm Hk) as Hnc.
    assert (Hre : forallb (fun t => negb (is_check_timer t))
                    (timers (rearm k t w)) = true)
      by (apply forallb_timers_rearm; auto).
    destruct (more_fields_rearm k t w) as (_ & _ & _ & Hfl' & _).
    unfold is_check_timer in Hnc.
    destruct t as [i T f p]; simpl in Hnc |- *.
    destruct f; try discriminate Hnc; cbn [run_timer_fn fn].
    + destruct (more_fields_cleanup
                  (rearm k (mkTimer i T FnCleanup p) w)) as (_ & _ & -> & _).
      rewrite Hfl'. repeat split; auto.
      apply forallb_timers_cleanup; auto.
    + unfold process_exit; simpl. rewrite Hfl'. repeat split; auto.
  - destruct (step_startup_inv _ _ _ He) as (Hsu'' & _). congruence.
  - destruct Hcase as (wm & Hk & _). rewrite Hfl in Hk.
    destruct k; discriminate.
  - destruct Hcase as (d & cb & _ & ->).
    destruct cb; simpl; repeat split; auto.
Qed.

(** X10: with [NODE_ENV] equal to [test] the connections are never
    initialised or probed: whatever happens, the connection flags keep
    their initial values, [ready] and [mounted] stay false, no batch is
    ever in flight, and the gate lets no request through. *)
Theorem test_environment_never_admits :
  forall (throws : bool) (es : list Event) (w : World),
    run (boot EnvTest throws) es = Some w ->
    St.connections (state w) = St.mkConnections false true false
    /\ St.ready (state w) = false
    /\ St.mounted (state w) = false
    /\ inflight w = []
    /\ forall (Req : Type) (req : Req), gate (state w) req <> Next req.
Proof.
  intros throws es w Hrun.
  assert (H : inert w).
  { apply (run_invariant inert inert_step es (boot EnvTest throws) w);
      [|exact Hrun].
    unfold inert; cbn. repeat split; reflexivity. }
  destruct H as (_ & Hfl & _ & Hc & Hr & Hm).
  repeat split; auto.
  intros Req req. unfold gate. rewrite Hr.
  destruct (St.shutdown (state w)); discriminate.
Qed.

Lemma test_environment_never_admits_witness :
  St.ready
    (state (world_after EnvTest false [Elapse 10000; Signal; Elapse 5000;
                                       TimerFires 0])) = false.
Proof.
  apply (test_environment_never_admits false
           [Elapse 10000; Signal; Elapse 5000; TimerFires 0]).
  vm_compute; reflexivity.
Defined.

(** *** The mail connection *)

Lemma email_default_step (w : World) (e : Event) (w' : World) :
  (is_production (env w) = false ->
   St.email (St.connections (state w)) = true) ->
  step w e = Some w' ->
  is_production (env w') = false ->
  St.email (St.connections (state w')) = true.
Proof.
  intros Hw He. rewrite (env_step _ _ _ He). intros Hnp.
  specialize (Hw Hnp). rewrite (step_state _ _ _ He).
  destruct e as [|d|k|r|k [[r0 r1]|]|k]; cbn [state_after]; auto.
  - destruct (nth_error (timers w) k) as [[i T [] p]|]; simpl; exact Hw.
  - destruct (step_startup_inv _ _ _ He) as (_ & Hfit & _).
    rewrite state_settle_startup. unfold results_fit in Hfit.
    destruct r as [[[r0 r1] [em|]]|]; simpl; auto. congruence.
  - rewrite state_checkConnections_then. exact Hw.
Qed.

(** X11: outside production the mail connection is never checked: its
    flag keeps the initial [true] for the whole life of the process, so
    [ready] is the conjunction of the data and queue flags alone. *)
Theorem email_assumed_outside_production :
  forall w : World,
    Reachable w ->
    is_production (env w) = false ->
    St.email (St.connections (state w)) = true
    /\ St.ready (state w)
       = St.data (St.connections (state w)) && St.queue (St.connections (state w)).
Proof.
  intros w Hr Hnp.
  assert (He : St.email (St.connections (state w)) = true).
  { revert Hnp.
    apply (reachable_invariant
             (fun x => is_production (env x) = false ->
                       St.email (St.connections (state x)) = true)); trivial.
    - intros e th. destruct e, th; cbn; auto.
    - intros x e x' Hx Hs. now apply (email_default_step x e x'). }
  split; [exact He|].
  assert (Hready : ready_recomputed (state w)).
  { apply (reachable_invariant (fun w => ready_recomputed (state w))); trivial.
    - apply ready_recomputed_boot.
    - intros; eapply ready_recomputed_step; eauto. }
  unfold ready_recomputed in Hready. rewrite Hready, He.
  now rewrite Bool.andb_true_r.
Qed.

Lemma email_assumed_outside_production_witness :
  St.email
    (St.connections
       (state (world_after EnvOther false
                 [StartupSettles (Some (false, true, None));
                  Elapse 10000; TimerFires 0;
                  ProbeSettles 0 (Some (true, false))]))) = true.
Proof.
  apply (email_assumed_outside_production
           (world_after EnvOther false
              [StartupSettles (Some (false, true, None));
               Elapse 10000; TimerFires 0;
               ProbeSettles 0 (Some (true, false))])).
  - exists EnvOther, false,
      [StartupSettles (Some (false, true, None));
       Elapse 10000; TimerFires 0; ProbeSettles 0 (Some (true, false))].
    vm_compute; reflexivity.
  - vm_compute; reflexivity.
Defined.

(** *** The error handler *)

(** X13: once [cleanup] has set the shutdown flag, no error of any kind
    makes the handler reset the data connection again, however the
    shutdown then proceeds. *)
Theorem no_reset_once_shutting_down :
  forall (w : World) (es : list Event) (w' : World) (err : Err),
    St.shutdown (state w) = true ->
    run w es = Some w' ->
    reset (errorHandler (state w') err) = false.
Proof.
  intros w es w' err Hsd Hrun.
  assert (H : St.shutdown (state w') = true).
  { apply (run_invariant (fun w => St.shutdown (state w) = true)
             shutdown_flag_step es w w' Hsd Hrun). }
  destruct err as [p st|m st]; simpl; rewrite H; simpl;
    [apply Bool.andb_false_r | reflexivity].
Qed.

Lemma no_reset_once_shutting_down_witness :
  reset
    (errorHandler
       (state (world_after EnvOther false
                 [Signal; Elapse 5000; TimerFires 1; CloseCompletes 0]))
       (ErrOther (JsString "connection lost") true)) = false.
Proof.
  apply (no_reset_once_shutting_down
           (world_after EnvOther false [Signal; Elapse 5000; TimerFires 1])
           [CloseCompletes 0]).
  - vm_compute; reflexivity.
  - vm_compute; reflexivity.
Defined.

(** *** A service nobody stops *)

Lemma untroubled_step (w : World) (e : Event) (w' : World) :
  untroubled w -> is_calm e = true -> step w e = Some w' -> untroubled w'.
Proof.
  intros (Hec & Hex & Hcl & Hsd & Htm) Hcalm He.
  destruct (step_cases _ _ _ He) as [_ Hcase].
  unfold untroubled.
  destruct e as [|d|k|r|k [r|]|k]; try discriminate Hcalm.
  - destruct Hcase as (_ & _ & ->). repeat split; auto.
  - destruct Hcase as (t & Hk & _ & ->).
    pose proof (forallb_nth_error _ _ _ _ Htm Hk) as Hck.
    assert (Hre : forallb is_check_timer (timers (rearm k t w)) = true)
      by (apply forallb_timers_rearm; auto).
    destruct (more_fields_rearm k t w) as (_ & Hst & Hec' & _).
    destruct (fields_rearm k t w) as (_ & _ & _ & Hex').
    unfold is_check_timer in Hck.
    destruct (fn t); try discriminate Hck. cbn [run_timer_fn].
    destruct (fields_checkConnections (rearm k t w))
      as (_ & -> & -> & -> & _).
    rewrite closing_checkConnections, closing_rearm, state_checkConnections,
      Hst, Hec', Hex'.
    repeat split; auto.
  - subst w'. destruct r as [[[r0 r1] [em|]]|]; simpl; repeat split; auto.
  - destruct Hcase as (wm & _ & ->). simpl. repeat split; auto.
  - destruct Hcase as (d & cb & Hk & _). rewrite Hcl in Hk.
    destruct k; discriminate.
Qed.

Lemma untroubled_run (es : list Event) :
  forall w w',
    untroubled w -> forallb is_calm es = true -> run w es = Some w' ->
    untroubled w'.
Proof.
  induction es as [|e es IH]; intros w w' Hu Hcalm Hrun; simpl in *.
  - now inversion Hrun; subst.
  - destruct (step w e) as [w1|] eqn:He; [|discriminate].
    apply Bool.andb_true_iff in Hcalm as [He' Hes].
    apply (IH w1 w'); auto. eapply untroubled_step; eauto.
Qed.

Lemma calm_has_no_completion (es : list Event) :
  forallb is_calm es = true -> existsb is_probe_completion es = false.
Proof.
  induction es as [|e es IH]; simpl; [reflexivity|].
  intros H. apply Bool.andb_true_iff in H as [He Hes].
  rewrite (IH Hes), Bool.orb_false_r.
  destruct e as [|d|k|r|k [r|]|k]; simpl in *; congruence.
Qed.

(** X14: a failed startup does not stop the service by itself.  When
    building the task list did not throw, then as long as no signal
    arrives and no periodic batch completes (every one rejects or hangs),
    the process neither exits nor begins to shut down, whatever the
    startup checks reported; it stays up and answers every request with
    503 "Server is not ready". *)
Theorem service_stays_up_without_probe_results :
  forall (e : NodeEnv) (es : list Event) (w : World),
    run (boot e false) es = Some w ->
    forallb is_calm es = true ->
    St.shutdown (state w) = false
    /\ exited w = None
    /\ exitCode w = None
    /\ forallb (fun t => negb (is_cleanup_timer t)) (timers w) = true
    /\ forall (Req : Type) (req : Req),
         gate (state w) req = Sent (mkProblem 503 "Server is not ready").
Proof.
  intros e es w Hrun Hcalm.
  assert (Hu : untroubled w).
  { apply (untroubled_run es (boot e false) w); auto.
    destruct e; unfold untroubled; cbn; repeat split; reflexivity. }
  assert (Hm : St.mounted (state w) = false).
  { apply (mounted_stays_false es (boot e false) w); auto.
    - destruct e; reflexivity.
    - now apply calm_has_no_completion. }
  destruct Hu as (Hec & Hex & _ & Hsd & Htm).
  repeat split; auto.
  - apply forallb_forall. intros t Ht. rewrite forallb_forall in Htm.
    specialize (Htm t Ht). unfold is_check_timer in Htm.
    unfold is_cleanup_timer. destruct (fn t); try discriminate; reflexivity.
  - intros Req req. unfold gate. rewrite Hsd, Hm.
    now rewrite Bool.orb_true_r.
Qed.

Lemma service_stays_up_without_probe_results_witness :
  exited
    (world_after EnvProduction false
       [StartupSettles (Some (false, false, Some false)); Elapse 10000;
        TimerFires 0; ProbeSettles 0 None; Elapse 10000; TimerFires 0])
  = None.
Proof.
  apply (service_stays_up_without_probe_results EnvProduction
           [StartupSettles (Some (false, false, Some false)); Elapse 10000;
            TimerFires 0; ProbeSettles 0 None; Elapse 10000; TimerFires 0]).
  - vm_compute; reflexivity.
  - reflexivity.
Defined.

(** *** A startup that throws *)

Lemma never_started_step (w : World) (e : Event) (w' : World) :
  startup w = false /\ count_effects is_mounted w = 0%nat ->
  step w e = Some w' ->
  startup w' = false /\ count_effects is_mounted w' = 0%nat.
Proof.
  intros [Hsu Hc] He.
  rewrite (startup_step _ _ _ He), (mounted_count_step _ _ _ He).
  destruct e as [|d|k|r|k r|k]; try (split; [exact Hsu | lia]).
  destruct (step_startup_inv _ _ _ He) as (Hsu' & _). congruence.
Qed.

(** X15: when building the startup task list throws, the process is on
    its way out from the first moment: exit code 1 is recorded and
    [cleanup] is scheduled, the queue listeners are never attached, and
    whatever happens next the process is gone within 15000 ms of module
    load, with status 1. *)
Theorem throwing_startup_exits_with_failure :
  forall (e : NodeEnv) (es : list Event) (w : World),
    is_test e = false ->
    run (boot e true) es = Some w ->
    exitCode w = Some 1
    /\ count_effects is_mounted w = 0%nat
    /\ match exited w with
       | Some c => c = 1
       | None => now w <= 15000
       end.
Proof.
  intros e es w Hte Hrun.
  assert (Hc : exitCode w = Some 1).
  { apply (run_invariant (fun w => exitCode w = Some 1)
             exitCode_sticky_step es (boot e true) w); [|exact Hrun].
    destruct e; try discriminate Hte; reflexivity. }
  split; [exact Hc|]. split.
  - apply (run_invariant
             (fun x => startup x = false /\ count_effects is_mounted x = 0%nat)
             never_started_step es (boot e true) w); [|exact Hrun].
    destruct e; try discriminate Hte; split; reflexivity.
  - destruct (exited w) as [c|] eqn:Hx.
    + assert (Hr : Reachable w) by (exists e, true, es; exact Hrun).
      destruct (reachable_exit_discipline w Hr) as (_ & Hst & _).
      rewrite (Hst c Hx). unfold exit_status. now rewrite Hc.
    + assert (H : shutting_down_by 5000 w).
      { apply (run_invariant (shutting_down_by 5000)
                 (shutting_down_by_step 5000) es (boot e true) w);
          [|exact Hrun].
        split; [apply probe_handle_ok_boot|]. left.
        destruct e; try discriminate Hte; cbn;
          (split; [lia | exists 0%nat; left; reflexivity]). }
      destruct H as [_ [[Hn _]|(D & HD & [Hq|[Hn _]])]]; try lia. congruence.
Qed.

Lemma throwing_startup_exits_with_failure_witness :
  exitCode
    (world_after EnvProduction true
       [Elapse 5000; TimerFires 0; Elapse 10000; TimerFires 0]) = Some 1.
Proof.
  apply (throwing_startup_exits_with_failure EnvProduction
           [Elapse 5000; TimerFires 0; Elapse 10000; TimerFires 0]).
  - reflexivity.
  - vm_compute; reflexivity.
Defined.

(** *** From an unhealthy check to the exit *)

(** X16: an unhealthy periodic check brings the process down.  When a
    batch completes with [ready] false while the shutdown flag is still
    false, then whatever happens next the process exits with status 1 and
    is gone within 15000 ms of that completion. *)
Theorem unready_probe_ends_the_process :
  forall (w : World) (k : nat) (r0 r1 : bool) (w' : World)
         (es : list Event) (w'' : World),
    Reachable w ->
    St.shutdown (state w) = false ->
    step w (ProbeSettles k (Some (r0, r1))) = Some w' ->
    St.ready (state w') = false ->
    run w' es = Some w'' ->
    match exited w'' with
    | Some c => c = 1
    | None => now w'' <= now w + 15000
    end.
Proof.
  intros w k r0 r1 w' es w'' Hr Hsd He Hready Hrun.
  assert (Hr' : Reachable w') by (eapply reachable_step; eauto).
  assert (Hr'' : Reachable w'').
  { destruct Hr' as (e0 & th & es0 & Hrun0). exists e0, th, (es0 ++ es).
    now rewrite run_app, Hrun0. }
  assert (Hsd' : St.shutdown (state w') = false).
  { rewrite (step_state _ _ _ He). cbn [state_after].
    now rewrite state_checkConnections_then. }
  destruct (probe_callback_unready _ _ _ _ _ He Hready)
    as (w0 & Hw' & Hc0 & Hs0 & Ht0 & Hn0 & Hnow0).
  assert (Hc' : exitCode w' = Some 1)
    by (rewrite Hw', exitCode_shutdown; exact Hc0).
  destruct (exited w'') as [c|] eqn:Hx.
  - assert (Hc'' : exitCode w'' = Some 1).
    { apply (run_invariant (fun w => exitCode w = Some 1)
               exitCode_sticky_step es w' w'' Hc' Hrun). }
    destruct (reachable_exit_discipline w'' Hr'') as (_ & Hst & _).
    rewrite (Hst c Hx). unfold exit_status. now rewrite Hc''.
  - assert (H : shutting_down_by (now w + 5000) w'').
    { apply (run_invariant (shutting_down_by (now w + 5000))
               (shutting_down_by_step (now w + 5000)) es w' w'');
        [|exact Hrun].
      split; [now apply reachable_probe_handle_ok|]. left.
      rewrite Hw'. destruct (soft_step_shutdown w0) as (_ & _ & -> & _).
      rewrite timers_shutdown, Hs0, Hsd', Ht0, Hn0, Hnow0.
      split; [lia|]. exists (nextTimer w). apply in_app_iff. right. now left. }
    destruct H as [_ [[Hn _]|(D & HD & [Hq|[Hn _]])]]; try lia. congruence.
Qed.

Lemma unready_probe_ends_the_process_witness :
  match
    exited
      (world_after EnvOther false
         [StartupSettles (Some (true, true, None)); Elapse 10000; TimerFires 0;
          ProbeSettles 0 (Some (false, true)); Elapse 5000; TimerFires 1;
          Elapse 10000; TimerFires 0])
  with
  | Some c => c = 1
  | None =>
      now (world_after EnvOther false
             [StartupSettles (Some (true, true, None)); Elapse 10000;
              TimerFires 0; ProbeSettles 0 (Some (false, true)); Elapse 5000;
              TimerFires 1; Elapse 10000; TimerFires 0])
      <= now (world_after EnvOther false
                [StartupSettles (Some (true, true, None)); Elapse 10000;
                 TimerFires 0]) + 15000
  end.
Proof.
  pose proof (unready_probe_ends_the_process
                (world_after EnvOther false
                   [StartupSettles (Some (true, true, None)); Elapse 10000;
                    TimerFires 0])
                0 false true
                (world_after EnvOther false
                   [StartupSettles (Some (true, true, None)); Elapse 10000;
                    TimerFires 0; ProbeSettles 0 (Some (false, true))])
                [Elapse 5000; TimerFires 1; Elapse 10000; TimerFires 0]
                (world_after EnvOther false
                   [StartupSettles (Some (true, true, None)); Elapse 10000;
                    TimerFires 0; ProbeSettles 0 (Some (false, true));
                    Elapse 5000; TimerFires 1; Elapse 10000; TimerFires 0]))
    as H.
  assert (Hr : Reachable
                 (world_after EnvOther false
                    [StartupSettles (Some (true, true, None)); Elapse 10000;
                     TimerFires 0])).
  { exists EnvOther, false,
      [StartupSettles (Some (true, true, None)); Elapse 10000; TimerFires 0].
    vm_compute; reflexivity. }
  specialize (H Hr).
  assert (H1 : St.shutdown
                 (state (world_after EnvOther false
                           [StartupSettles (Some (true, true, None));
                            Elapse 10000; TimerFires 0])) = false)
    by (vm_compute; reflexivity).
  assert (H2 : step (world_after EnvOther false
                       [StartupSettles (Some (true, true, None));
                        Elapse 10000; TimerFires 0])
                 (ProbeSettles 0 (Some (false, true)))
               = Some (world_after EnvOther false
                         [StartupSettles (Some (true, true, None));
                          Elapse 10000; TimerFires 0;
                          ProbeSettles 0 (Some (false, true))]))
    by (vm_compute; reflexivity).
  assert (H3 : St.ready
                 (state (world_after EnvOther false
                           [StartupSettles (Some (true, true, None));
                            Elapse 10000; TimerFires 0;
                            ProbeSettles 0 (Some (false, true))])) = false)
    by (vm_compute; reflexivity).
  assert (H4 : run (world_after EnvOther false
                      [StartupSettles (Some (true, true, None));
                       Elapse 10000; TimerFires 0;
                       ProbeSettles 0 (Some (false, true))])
                 [Elapse 5000; TimerFires 1; Elapse 10000; TimerFires 0]
               = Some (world_after EnvOther false
                         [StartupSettles (Some (true, true, None));
                          Elapse 10000; TimerFires 0;
                          ProbeSettles 0 (Some (false, true));
                          Elapse 5000; TimerFires 1; Elapse 10000;
                          TimerFires 0]))
    by (vm_compute; reflexivity).
  exact (H H1 H2 H3 H4).
Defined.

(** X17: a healthy periodic check opens the gate at once.  Outside
    production, when a batch completes with both checks true before
    [cleanup] has run, the gate lets the next request through, whether or
    not the startup batch has settled and whatever it reported. *)
Theorem healthy_probe_opens_the_gate :
  forall (Req : Type) (w : World) (k : nat) (w' : World) (req : Req),
    Reachable w ->
    is_production (env w) = false ->
    St.shutdown (state w) = false ->
    step w (ProbeSettles k (Some (true, true))) = Some w' ->
    gate (state w') req = Next req.
Proof.
  intros Req w k w' req Hr Hnp Hsd He.
  assert (Hem : St.email (St.connections (state w)) = true).
  { revert Hnp.
    apply (reachable_invariant
             (fun x => is_production (env x) = false ->
                       St.email (St.connections (state x)) = true)); trivial.
    - intros e th. destruct e, th; cbn; auto.
    - intros x e x' Hx Hs. now apply (email_default_step x e x'). }
  rewrite (step_state _ _ _ He). cbn [state_after].
  rewrite state_checkConnections_then. unfold gate. simpl.
  now rewrite Hsd, Hem.
Qed.

Lemma healthy_probe_opens_the_gate_witness :
  gate
    (state (world_after EnvOther false
              [StartupSettles (Some (false, false, None)); Elapse 10000;
               TimerFires 0; ProbeSettles 0 (Some (true, true))]))
    tt = Next tt.
Proof.
  apply (healthy_probe_opens_the_gate unit
           (world_after EnvOther false
              [StartupSettles (Some (false, false, None)); Elapse 10000;
               TimerFires 0])
           0).
  - exists EnvOther, false,
      [StartupSettles (Some (false, false, None)); Elapse 10000; TimerFires 0].
    vm_compute; reflexivity.
  - vm_compute; reflexivity.
  - vm_compute; reflexivity.
  - vm_compute; reflexivity.
Defined.

(** *** One chain at a time *)










(** When [cleanup] runs twice (two signals inside the five-second window)
    two chains are under way at once, each with its one pending close. *)
Example two_cleanups_two_chains :
  exists w,
    run (boot EnvOther false)
        [Signal; Elapse 1000; Signal; Elapse 4000; TimerFires 1;
         CloseCompletes 0; Elapse 1000; TimerFires 0] = Some w
    /\ cleanups w = 2%nat
    /\ closing w = [(Email, ThenCloseData); (Queue, ThenCloseEmail)].
Proof. eexists. split; [vm_compute; reflexivity|]. split; reflexivity. Qed.
